(** * Suspension-reason decoding and registry reconciliation

    A shallow embedding of [decode_suspension_reasons.py]: the decoder
    [decode_suspension_reason], the registry writer
    [insert_into_encodings_table], the result formatter
    [format_query_results] and the job body under [__main__].

    Python values are embedded as the inductive type [value]; a call either
    returns or raises, which is the type [result].  Strings are
    [String.string], so a character is a byte: the development covers ASCII
    encodings, on which [str.upper] maps [a-z] to [A-Z] and leaves every
    other character alone.

    The job runs in a state monad over the state of the warehouse and a
    journal of what was sent out.  The three client calls inside
    [query_execution] (start the query, poll it to a final state, fetch its
    rows) are one step of the warehouse, the parameter [athena] of the job:
    from the query text and the state of the world to the rows with the
    final status, or an exception, and a new state.  The body of
    [query_execution] itself, with its polling loop, is the module
    [Polling].  Printing and the clock are left out, and the dashboard
    accepts every report it is sent. *)

From Stdlib Require Import String Ascii List ZArith Bool Arith Lia.
From Stdlib Require Import DecimalString.
Import ListNotations.

Local Open Scope list_scope.
Local Open Scope string_scope.

(* ===================================================================== *)
(** * Python values, exceptions, results *)
(* ===================================================================== *)

(** The values the job handles: [None], integers (standing for any
    non-string object that may reach the decoder) and strings. *)
Inductive value : Type :=
| VNone
| VInt (z : Z)
| VStr (s : string).

Inductive exn : Type :=
| TypeError
| KeyError
| AttributeError
| IndexError
| ValueError
| SystemExit (code : Z).

Inductive result (A : Type) : Type :=
| Ok (a : A)
| Raise (e : exn).

Arguments Ok {A} a.
Arguments Raise {A} e.

Definition value_eq_dec (a b : value) : {a = b} + {a <> b}.
Proof.
  decide equality; [apply Z.eq_dec | apply string_dec].
Defined.

Definition value_eqb (a b : value) : bool :=
  if value_eq_dec a b then true else false.

(** [type(v) != str] is [negb (is_str v)]. *)
Definition is_str (v : value) : bool :=
  match v with VStr _ => true | _ => false end.

(** [bool(v)]: [None], [0] and the empty string are falsy. *)
Definition py_bool (v : value) : bool :=
  match v with
  | VNone => false
  | VInt z => negb (Z.eqb z 0)
  | VStr s => negb (String.eqb s "")
  end.

(** [str(v)], as an f-string formats a value. *)
Definition py_str (v : value) : string :=
  match v with
  | VNone => "None"
  | VInt z => NilZero.string_of_int (Z.to_int z)
  | VStr s => s
  end.

(** [repr(v)]; for a string without quotes, backslashes or control
    characters this is the string between single quotes. *)
Definition py_repr (v : value) : string :=
  match v with
  | VStr s => "'" ++ s ++ "'"
  | _ => py_str v
  end.

(** [s.upper()] on ASCII text. *)
Definition upper_char (c : ascii) : ascii :=
  let n := nat_of_ascii c in
  if (97 <=? n)%nat && (n <=? 122)%nat then ascii_of_nat (n - 32) else c.

Fixpoint upper (s : string) : string :=
  match s with
  | EmptyString => EmptyString
  | String c rest => String (upper_char c) (upper rest)
  end.

(** Text of ASCII characters only.  Outside ASCII [str.upper] does more
    than [upper] (it maps the dotless i to [I], for one), so a statement
    that concludes a failure from the symbols of [upper s] is about ASCII
    text. *)
Fixpoint ascii_text (s : string) : bool :=
  match s with
  | EmptyString => true
  | String c rest => (nat_of_ascii c <? 128)%nat && ascii_text rest
  end.

(** [v.upper()]: only strings have the method. *)
Definition method_upper (v : value) : result value :=
  match v with
  | VStr s => Ok (VStr (upper s))
  | _ => Raise AttributeError
  end.

(** The strings of a list of values, when every item is a string. *)
Fixpoint all_strs (items : list value) : option (list string) :=
  match items with
  | [] => Some []
  | VStr s :: rest =>
      match all_strs rest with
      | Some l => Some (s :: l)
      | None => None
      end
  | _ :: _ => None
  end.

(** [sep.join(items)]: a [TypeError] when an item is not a string. *)
Definition str_join (sep : string) (items : list value) : result string :=
  match all_strs items with
  | Some l => Ok (String.concat sep l)
  | None => Raise TypeError
  end.

(* ===================================================================== *)
(** * The symbol table and the decoder *)
(* ===================================================================== *)

(** A dict literal, in source order. *)
Definition dict (K V : Type) : Type := list (K * V).

Fixpoint lookup {K V : Type} (eqb : K -> K -> bool) (d : dict K V) (k : K)
  : option V :=
  match d with
  | [] => None
  | (k', v) :: rest => if eqb k' k then Some v else lookup eqb rest k
  end.

Definition SUSPENSION_REASONS : dict ascii string :=
  [ ("-"%char, "Unknown");
    ("A"%char, "StalePricing");
    ("B"%char, "Settled");
    ("C"%char, "OutsideLineRange");
    ("D"%char, "BelowMinimumPrice");
    ("E"%char, "NoSelection");
    ("F"%char, "MatchVoided");
    ("H"%char, "NoMainLine");
    ("I"%char, "NoUnsettledLines");
    ("J"%char, "NoUnsuspendedLines");
    ("K"%char, "SettlementCorrection") ].

(** [SUSPENSION_REASONS.get(char)]: the label, or [None] for a character
    that is not a key. *)
Definition reasons_get (char : ascii) : value :=
  match lookup Ascii.eqb SUSPENSION_REASONS char with
  | Some label => VStr label
  | None => VNone
  end.

Definition decode_suspension_reason (text : value) : result value :=
  match text with
  | VStr s =>
      let split_text := list_ascii_of_string s in
      let decoded_reasons_list := map reasons_get split_text in
      match str_join ";" decoded_reasons_list with
      | Ok decoded_reasons => Ok (VStr decoded_reasons)
      | Raise e => Raise e
      end
  | _ => Ok VNone
  end.

(** A character that is a key of the symbol table. *)
Definition known_symbol (c : ascii) : Prop :=
  exists label, lookup Ascii.eqb SUSPENSION_REASONS c = Some label.

(** The "no decode" results: [None] or the empty string. *)
Definition no_decode (v : value) : Prop := v = VNone \/ v = VStr "".

(* ===================================================================== *)
(** * Query answers and their formatting *)
(* ===================================================================== *)

Definition bind_result {A B : Type} (r : result A) (k : A -> result B)
  : result B :=
  match r with
  | Ok a => k a
  | Raise e => Raise e
  end.

(** A list comprehension whose body may raise. *)
Fixpoint map_result {A B : Type} (f : A -> result B) (l : list A)
  : result (list B) :=
  match l with
  | [] => Ok []
  | x :: rest =>
      bind_result (f x) (fun y =>
      bind_result (map_result f rest) (fun ys => Ok (y :: ys)))
  end.

(** [d[k]] and [l[i]]. *)
Definition subscript {K V : Type} (eqb : K -> K -> bool) (d : dict K V) (k : K)
  : result V :=
  match lookup eqb d k with
  | Some v => Ok v
  | None => Raise KeyError
  end.

Definition list_item {A : Type} (l : list A) (i : nat) : result A :=
  match nth_error l i with
  | Some x => Ok x
  | None => Raise IndexError
  end.

(** A cell of an answer is a JSON object that carries its text under
    ["VarCharValue"]; a row is the list under ["Data"]; an answer is the
    list of rows under ["ResultSet"]["Rows"], the header row first. *)
Definition datum : Type := dict string value.
Definition row : Type := list datum.
Definition ResultSet : Type := list row.

Definition format_query_results (answer : ResultSet) (single_column : bool)
  : result (if single_column then list value else list (list value)) :=
  let columns :=
    map_result
      (fun r : row =>
         map_result (fun c : datum => subscript String.eqb c "VarCharValue") r)
      answer in
  match single_column
        return result (if single_column then list value else list (list value))
  with
  | true =>
      bind_result columns (fun columns =>
      let results := tl columns in
      map_result (fun r => list_item r 0) results)
  | false =>
      bind_result columns (fun columns => Ok (tl columns))
  end.

(* ===================================================================== *)
(** * Query texts *)
(* ===================================================================== *)

Definition nl : string := String (ascii_of_nat 10) EmptyString.
Definition dquote : string := String (ascii_of_nat 34) EmptyString.

(** The lines of a triple-quoted literal. *)
Definition text_lines (ls : list string) : string := String.concat nl ls.

Definition SCHEMAS : list string := ["baseball_stagingus"; "ncaab_stagingus"].

Definition ENCODINGS_TABLE_SCHEMAS : dict string string :=
  [ ("baseball_stagingus", "mlb_sit_views");
    ("ncaab_stagingus", "ncaab_sit_views") ].

Definition IDENTIFY_TABLES_WITH_SUSPENSION_REASONS_COLUMNS : string :=
  text_lines
    [ "";
      "        SELECT";
      "            DISTINCT(table_name) AS table_name,";
      "            table_schema";
      "        FROM";
      "            information_schema.columns";
      "        WHERE";
      "            table_schema IN ("
        ++ String.concat "," (map (fun schema => "'" ++ schema ++ "'") SCHEMAS)
        ++ ")";
      "            AND (";
      "                column_name = 'selectionsuspensionreasons' ";
      "                OR column_name = 'linesuspensionreasons'";
      "            ) AND table_name LIKE '%fmt%'";
      "    " ].

Definition TIME_PARTITIONED_FIXTURE_KEYS_QUERY (schema : value) (n : Z)
  : string :=
  text_lines
    [ "";
      "        SELECT";
      "            DISTINCT FixtureKey";
      "        FROM";
      "            " ++ py_str schema ++ ".kafka_fixturemarkets";
      "        WHERE";
      "            " ++ dquote ++ "$file_modified_time" ++ dquote
        ++ " >= current_timestamp - INTERVAL '" ++ py_str (VInt n)
        ++ "' HOUR;";
      "    " ].

Definition fixture_clause (fixture_keys : list value) : string :=
  let fixture_keys_with_quotes :=
    map (fun key => "'" ++ py_str key ++ "'") fixture_keys in
  if (0 <? length fixture_keys_with_quotes)%nat
  then "AND FixtureKey IN (" ++ String.concat ", " fixture_keys_with_quotes
       ++ ")"
  else "".

Definition CHECK_FOR_NEW_ENCODINGS_QUERY
  (schema table : value) (fixture_keys : list value) : string :=
  text_lines
    [ "";
      "        SELECT DISTINCT SelectionSuspensionReasons";
      "        FROM";
      "            " ++ py_str schema ++ "." ++ py_str table;
      "        WHERE (SelectionSuspensionReasons = SelectionSuspensionReason_str)";
      "            " ++ fixture_clause fixture_keys;
      "        UNION    SELECT DISTINCT LineSuspensionReasons";
      "        FROM";
      "            " ++ py_str schema ++ "." ++ py_str table;
      "        WHERE (LineSuspensionReasons = LineSuspensionReason_str)";
      "            " ++ fixture_clause fixture_keys;
      "    " ].

(** The text of one insertion, for the target schema [target]. *)
Definition INSERT_QUERY (target encoded decoded : string) : string :=
  text_lines
    [ "";
      "            INSERT INTO " ++ target ++ ".vw_suspension_reasons";
      "            VALUES " ++ ("('" ++ encoded ++ "','" ++ decoded ++ "');");
      "        " ].

(** ["('" + encoded + "','" + decoded + "');"]: [str + v] raises unless
    [v] is a string. *)
Definition values_tuple (encoded decoded : value) : result string :=
  match encoded, decoded with
  | VStr e, VStr d => Ok ("('" ++ e ++ "','" ++ d ++ "');")
  | _, _ => Raise TypeError
  end.

(* ===================================================================== *)
(** * The decoding step of the job *)
(* ===================================================================== *)

Definition pair : Type := (value * value)%type.

(** What the loop body does with the encodings read from one table: drop
    the falsy entries, skip the table ([None]) when nothing is left,
    otherwise decode the upper-cased form of each entry and pair it with
    the entry as observed. *)
Definition decode_new_encodings (encoded_suspension_reasons : list value)
  : result (option (list pair)) :=
  let encoded_suspension_reasons :=
    filter (fun x => py_bool x) encoded_suspension_reasons in
  if (length encoded_suspension_reasons <? 1)%nat then Ok None
  else
    bind_result
      (map_result
         (fun reason =>
            bind_result (method_upper reason) decode_suspension_reason)
         encoded_suspension_reasons)
      (fun decoded_suspension_reasons =>
         Ok (Some (combine encoded_suspension_reasons
                           decoded_suspension_reasons))).

(** [d[k] = v] and [d.setdefault(k, []).extend(items)] on a dict kept in
    insertion order. *)
Fixpoint dict_set {V : Type} (d : dict value V) (k : value) (v : V)
  : dict value V :=
  match d with
  | [] => [(k, v)]
  | (k', v') :: rest =>
      if value_eqb k' k then (k', v) :: rest
      else (k', v') :: dict_set rest k v
  end.

Fixpoint setdefault_extend {A : Type} (d : dict value (list A)) (k : value)
  (items : list A) : dict value (list A) :=
  match d with
  | [] => [(k, items)]
  | (k', v') :: rest =>
      if value_eqb k' k then (k', (v' ++ items)%list) :: rest
      else (k', v') :: setdefault_extend rest k items
  end.

(** [any([len(x) > 1 for x in list(d.values())])], the test of both
    early exits of the job. *)
Definition any_longer_than_one {A : Type} (d : dict value (list A)) : bool :=
  existsb (fun x => (1 <? length x)%nat) (map snd d).

(** [for table, schema in rows]: each row unpacks into exactly two. *)
Definition unpack2 (r : list value) : result (value * value) :=
  match r with
  | [a; b] => Ok (a, b)
  | _ => Raise ValueError
  end.

(** [repr] of the dict of new encodings, as the final status shows it. *)
Definition repr_pair (p : pair) : string :=
  "(" ++ py_repr (fst p) ++ ", " ++ py_repr (snd p) ++ ")".

Definition repr_encodings (d : dict value (list pair)) : string :=
  "{" ++ String.concat ", "
           (map (fun kv => py_repr (fst kv) ++ ": ["
                           ++ String.concat ", " (map repr_pair (snd kv))
                           ++ "]") d)
      ++ "}".

(** The job status is a string, the list of statuses that
    [insert_into_encodings_table] returns when an insertion did not
    succeed, or the exception caught by the job. *)
Inductive job_status : Type :=
| SStr (s : string)
| SList (statuses : list string)
| SExn (e : exn).

(** [status + text]: only a string can be extended by a string. *)
Definition status_add (status : job_status) (text : string)
  : result job_status :=
  match status with
  | SStr s => Ok (SStr (s ++ text))
  | _ => Raise TypeError
  end.

(** [status in ['FAILED', 'CANCELLED']]. *)
Definition status_in_failed (status : job_status) : bool :=
  match status with
  | SStr s => String.eqb s "FAILED" || String.eqb s "CANCELLED"
  | _ => false
  end.

(* ===================================================================== *)
(** * The job: state, effects and the three phases *)
(* ===================================================================== *)

(** What the job does to the outside: a query sent to the warehouse,
    with the final status it came back with (or the exception), and a
    report sent to the job dashboard. *)
Inductive event : Type :=
| Executed (query : string) (answer : result string)
| Reported (status : job_status).

Section Job.

(** The warehouse: its state and what running a query text does. *)
Variable World : Type.
Variable athena : string -> World -> result (ResultSet * string) * World.

(** The order in which a set built from a list is iterated; the language
    leaves it open. *)
Variable set_order : list value -> list value.

Record state : Type := mkState {
  world : World;
  journal : list event
}.

Definition M (A : Type) : Type := state -> result A * state.

Definition ret {A : Type} (a : A) : M A := fun st => (Ok a, st).

Definition bind {A B : Type} (m : M A) (k : A -> M B) : M B :=
  fun st =>
    match m st with
    | (Ok a, st') => k a st'
    | (Raise e, st') => (Raise e, st')
    end.

Definition raise {A : Type} (e : exn) : M A := fun st => (Raise e, st).

Definition lift {A : Type} (r : result A) : M A := fun st => (r, st).

(** [try: body / except Exception as e: handler(e)]; [SystemExit] is not
    an [Exception] and passes through. *)
Definition try_except {A : Type} (body : M A) (handler : exn -> M A) : M A :=
  fun st =>
    match body st with
    | (Ok a, st') => (Ok a, st')
    | (Raise (SystemExit c), st') => (Raise (SystemExit c), st')
    | (Raise e, st') => handler e st'
    end.

Notation "x <- m ;; k" := (bind m (fun x => k))
  (at level 61, m at next level, right associativity).
Notation "' pat <- m ;; k" := (bind m (fun x => match x with pat => k end))
  (at level 61, pat pattern, m at next level, right associativity).

(** A [for] loop whose body updates the loop-carried variables [s]. *)
Fixpoint for_each {A S : Type} (body : S -> A -> M S) (s : S) (xs : list A)
  : M S :=
  match xs with
  | [] => ret s
  | x :: rest => s' <- body s x ;; for_each body s' rest
  end.

(** [query_execution(query)]: the query runs in the warehouse, which is
    recorded, and the rows come back with the final status. *)
Definition query_execution (query : string) : M (ResultSet * string) :=
  fun st =>
    match athena query (world st) with
    | (Ok (rows, status), w') =>
        (Ok (rows, status),
         mkState w' (journal st ++ [Executed query (Ok status)])%list)
    | (Raise e, w') =>
        (Raise e, mkState w' (journal st ++ [Executed query (Raise e)])%list)
    end.

Definition check_for_new_suspension_reason_tables
  : M (ResultSet * string) :=
  query_execution IDENTIFY_TABLES_WITH_SUSPENSION_REASONS_COLUMNS.

Definition get_fixture_keys_from_last_n_hours (schema : value) (n : Z)
  : M (ResultSet * string) :=
  query_execution (TIME_PARTITIONED_FIXTURE_KEYS_QUERY schema n).

Definition check_for_new_suspension_reason_encodings
  (schema table : value) (fixture_keys : list value)
  : M (ResultSet * string) :=
  query_execution (CHECK_FOR_NEW_ENCODINGS_QUERY schema table fixture_keys).

(** The body of the insertion loop: one statement for one pair. *)
Definition insert_one (schema : value) (statuses : list string) (p : pair)
  : M (list string) :=
  let '(encoded, decoded) := p in
  target <- lift (match schema with
                  | VStr s => subscript String.eqb ENCODINGS_TABLE_SCHEMAS s
                  | _ => Raise KeyError
                  end) ;;
  tuple <- lift (values_tuple encoded decoded) ;;
  let query :=
    text_lines
      [ "";
        "            INSERT INTO " ++ target ++ ".vw_suspension_reasons";
        "            VALUES " ++ tuple;
        "        " ] in
  ' (_, status) <- query_execution query ;;
  ret (statuses ++ [status])%list.

Definition insert_into_encodings_table (schema : value)
  (encodings : list pair) : M job_status :=
  if (length encodings <? 1)%nat then ret (SStr "SUCCEEDED")
  else
    statuses <- for_each (insert_one schema) [] encodings ;;
    if forallb (fun status => String.eqb status "SUCCEEDED") statuses
    then ret (SStr "SUCCEEDED")
    else ret (SList statuses).

(** [json.dumps] of the payload fails on an exception object; otherwise
    the report goes out. *)
Definition report_job (status : job_status) : M unit :=
  match status with
  | SExn _ => raise TypeError
  | _ => fun st => (Ok tt, mkState (world st) (journal st ++ [Reported status])%list)
  end.

(** [finish_job] reports and then leaves with [exit(0)]. *)
Definition finish_job {A : Type} (status : job_status) : M A :=
  _ <- report_job status ;;
  raise (SystemExit 0).

(** Recent fixtures of every schema that has a table to check. *)
Definition collect_fixtures (TABLES_SCHEMAS : list (list value))
  (status : string) : M (dict value (list value) * string) :=
  schemas <- lift (map_result (fun ts => list_item ts 1) TABLES_SCHEMAS) ;;
  for_each
    (fun (acc : dict value (list value) * string) schema =>
       let '(fixtures_by_schema, _) := acc in
       ' (fixtures, status) <- get_fixture_keys_from_last_n_hours schema 25 ;;
       fixtures <- lift (format_query_results fixtures true) ;;
       ret (dict_set fixtures_by_schema schema fixtures, status))
    ([], status) (set_order schemas).

(** New encodings of every table, decoded and grouped by schema. *)
Definition collect_new_encodings (TABLES_SCHEMAS : list (list value))
  (fixtures_by_schema : dict value (list value)) (status : string)
  : M (dict value (list pair) * string) :=
  for_each
    (fun (acc : dict value (list pair) * string) (ts : list value) =>
       let '(new_encodings_dict, _) := acc in
       ' (table, schema) <- lift (unpack2 ts) ;;
       fixtures_list <- lift (subscript value_eqb fixtures_by_schema schema) ;;
       ' (new_encodings, status) <-
         check_for_new_suspension_reason_encodings schema table fixtures_list ;;
       encoded_suspension_reasons <-
         lift (format_query_results new_encodings true) ;;
       decoded <- lift (decode_new_encodings encoded_suspension_reasons) ;;
       match decoded with
       | None => ret (new_encodings_dict, status)
       | Some suspension_reason_encodings =>
           ret (setdefault_extend new_encodings_dict schema
                  suspension_reason_encodings, status)
       end)
    ([], status) TABLES_SCHEMAS.

(** The insertions, schema by schema; the status of the last one stays.
    On a failed status the loop prints and goes on to the next schema. *)
Definition insert_all (new_encodings_dict : dict value (list pair))
  (status : job_status) : M job_status :=
  for_each
    (fun (_ : job_status) (key : value) =>
       encodings <- lift (subscript value_eqb new_encodings_dict key) ;;
       status <- insert_into_encodings_table key encodings ;;
       if status_in_failed status then ret status else ret status)
    status (map fst new_encodings_dict).

Definition job_body : M unit :=
  ' (TABLES_SCHEMAS, status) <- check_for_new_suspension_reason_tables ;;
  TABLES_SCHEMAS <- lift (format_query_results TABLES_SCHEMAS false) ;;
  ' (fixtures_by_schema, status) <- collect_fixtures TABLES_SCHEMAS status ;;
  _ <- (if negb (any_longer_than_one fixtures_by_schema)
        then finish_job (SStr (status ++ " - No new fixtures"))
        else ret tt) ;;
  ' (new_encodings_dict, status) <-
    collect_new_encodings TABLES_SCHEMAS fixtures_by_schema status ;;
  _ <- (if negb (any_longer_than_one new_encodings_dict)
        then finish_job (SStr (status ++ " - No new encodings"))
        else ret tt) ;;
  status <- insert_all new_encodings_dict (SStr status) ;;
  status <- lift (status_add status
                    (" - Encodings added : "
                     ++ repr_encodings new_encodings_dict)) ;;
  finish_job status.

Definition main : M unit :=
  try_except job_body (fun e => finish_job (SExn e)).

(** The query texts a run sent, in order. *)
Definition queries_of (j : list event) : list string :=
  flat_map (fun ev => match ev with
                      | Executed q _ => [q]
                      | Reported _ => []
                      end) j.

End Job.

Arguments mkState {World} world journal.
Arguments world {World} s.
Arguments journal {World} s.

(* ===================================================================== *)
(** * A reference warehouse *)
(* ===================================================================== *)

(** A warehouse to run the job against: it answers the three kinds of
    [SELECT] of the job with fixed rows, and keeps the encodings table of
    each target schema as the rows inserted so far.  The table has no key:
    an [INSERT] appends its row, unless the warehouse is set to reject the
    encoded string, in which case the statement ends [FAILED]. *)
Module Athena.

Record warehouse : Type := mkWarehouse {
  tables : ResultSet;
  fixtures : ResultSet;
  encodings : ResultSet;
  rejected : list string;
  registry : list (string * (string * string))
}.

Definition contains (pattern text : string) : bool :=
  match String.index 0 pattern text with
  | Some _ => true
  | None => false
  end.

Definition before (pattern text : string) : option string :=
  match String.index 0 pattern text with
  | Some i => Some (String.substring 0 i text)
  | None => None
  end.

Definition after (pattern text : string) : option string :=
  match String.index 0 pattern text with
  | Some i =>
      let start := (i + String.length pattern)%nat in
      Some (String.substring start (String.length text - start) text)
  | None => None
  end.

(** Target schema, encoded and decoded string of an [INSERT] text. *)
Definition parse_insert (query : string)
  : option (string * (string * string)) :=
  match after "INSERT INTO " query with
  | Some rest =>
      match before ".vw_suspension_reasons" rest, after "VALUES ('" rest with
      | Some target, Some vals =>
          match before "','" vals, after "','" vals with
          | Some encoded, Some tail =>
              match before "');" tail with
              | Some decoded => Some (target, (encoded, decoded))
              | None => None
              end
          | _, _ => None
          end
      | _, _ => None
      end
  | None => None
  end.

Definition run (query : string) (w : warehouse)
  : result (ResultSet * string) * warehouse :=
  if contains "INSERT INTO " query then
    match parse_insert query with
    | Some (target, (encoded, decoded)) =>
        if existsb (String.eqb encoded) (rejected w)
        then (Ok ([], "FAILED"), w)
        else (Ok ([], "SUCCEEDED"),
              mkWarehouse (tables w) (fixtures w) (encodings w) (rejected w)
                (registry w ++ [(target, (encoded, decoded))])%list)
    | None => (Ok ([], "FAILED"), w)
    end
  else if contains "information_schema.columns" query then
    (Ok (tables w, "SUCCEEDED"), w)
  else if contains ".kafka_fixturemarkets" query then
    (Ok (fixtures w, "SUCCEEDED"), w)
  else (Ok (encodings w, "SUCCEEDED"), w).

(** An answer with one header row and the given rows of string cells. *)
Definition cell (v : value) : datum := [("VarCharValue", v)].

Definition answer (header : list string) (rows : list (list value))
  : ResultSet :=
  map (map cell) (map VStr header :: rows).

(** A set is iterated in the order of first occurrence. *)
Definition first_occurrences (l : list value) : list value :=
  rev (nodup value_eq_dec (rev l)).

Definition start (w : warehouse) : state warehouse := mkState w [].

(** One table of [baseball_stagingus] with two recent fixtures and the
    given new encodings. *)
Definition baseball (new_encodings : list value) (rejected : list string)
  (registry : list (string * (string * string))) : warehouse :=
  mkWarehouse
    (answer ["table_name"; "table_schema"]
            [[VStr "fixturemarkets_fmt"; VStr "baseball_stagingus"]])
    (answer ["FixtureKey"] [[VStr "fk-1"]; [VStr "fk-2"]])
    (answer ["SelectionSuspensionReasons"]
            (map (fun v => [v]) new_encodings))
    rejected registry.

Definition run_main (w : warehouse) : result unit * state warehouse :=
  main warehouse run first_occurrences (start w).

End Athena.

(** Null cells and empty strings: the entries the job counts as no data. *)
Definition is_blank (v : value) : bool :=
  match v with
  | VNone => true
  | VStr EmptyString => true
  | _ => false
  end.

(** A cell as the warehouse delivers it: null or text. *)
Definition is_cell (v : value) : bool :=
  match v with
  | VInt _ => false
  | _ => true
  end.

(** An encodings table holds at most one decoded string per encoded
    string. *)
Definition one_decoded_per_encoded
  (rows : list (string * (string * string))) : Prop :=
  forall target encoded d1 d2,
    In (target, (encoded, d1)) rows ->
    In (target, (encoded, d2)) rows -> d1 = d2.

(** Insert-if-absent, as a property of one call on the reference
    warehouse: the table keeps one decoded string per encoded string, and a
    call whose pairs are all stored already leaves the table as it was. *)
Definition insert_if_absent (w : Athena.warehouse) (schema target : string)
  (encodings : list (string * string)) : Prop :=
  let st' :=
    snd (insert_into_encodings_table Athena.warehouse Athena.run
           (VStr schema)
           (map (fun p => (VStr (fst p), VStr (snd p))) encodings)
           (Athena.start w)) in
  (one_decoded_per_encoded (Athena.registry w) ->
   one_decoded_per_encoded (Athena.registry (world st')))
  /\ ((forall p, In p encodings ->
         exists d, In (target, (fst p, d)) (Athena.registry w)) ->
      Athena.registry (world st') = Athena.registry w).

(** A pair of strings as the pair of values the job handles. *)
Definition str_pair (p : string * string) : pair :=
  (VStr (fst p), VStr (snd p)).

(** The journal entry of the insertion of a pair that ended in [status]. *)
Definition insertion (target : string) (ps : (string * string) * string)
  : event :=
  Executed (INSERT_QUERY target (fst (fst ps)) (snd (fst ps))) (Ok (snd ps)).

(** The label the symbol table gives a character. *)
Definition label_of (c : ascii) (label : string) : Prop :=
  lookup Ascii.eqb SUSPENSION_REASONS c = Some label.

(** A string without the separator of the decoder. *)
Fixpoint semicolon_free (s : string) : bool :=
  match s with
  | EmptyString => true
  | String c rest => negb (Ascii.eqb c ";"%char) && semicolon_free rest
  end.

(** A label that can be read back from a decoded string: not empty and
    without the separator. *)
Definition plain_label (label : string) : bool :=
  negb (String.eqb label "") && semicolon_free label.

(** What follows the first item of a join. *)
Definition join_rest (labels : list string) : string :=
  match labels with
  | [] => ""
  | _ :: _ => ";" ++ String.concat ";" labels
  end.

(** The text of a cell, when the cell carries one. *)
Definition cell_text (c : datum) (v : value) : Prop :=
  lookup String.eqb c "VarCharValue" = Some v.

(** [SystemExit], the one exception [except Exception] lets through. *)
Definition is_exit (e : exn) : bool :=
  match e with
  | SystemExit _ => true
  | _ => false
  end.

(** A result that is not an exit of the process. *)
Definition no_exit {A : Type} (r : result A) : Prop :=
  match r with
  | Ok _ => True
  | Raise e => is_exit e = false
  end.

(** The reports a journal holds, in order. *)
Definition reports_of (j : list event) : list job_status :=
  flat_map (fun ev => match ev with
                      | Reported status => [status]
                      | Executed _ _ => []
                      end) j.

(** How a step of the job that started in [st] may have ended: with a
    value that satisfies [Q] and no report sent; with an exception that
    satisfies [E], is no exit, and no report sent; or with [exit(0)] right
    after exactly one report. *)
Definition ended {World A : Type} (Q : A -> Prop) (E : exn -> Prop)
  (st : state World) (out : result A * state World) : Prop :=
  match out with
  | (Ok a, st') =>
      reports_of (journal st') = reports_of (journal st) /\ Q a
  | (Raise e, st') =>
      (is_exit e = false /\ E e
       /\ reports_of (journal st') = reports_of (journal st))
      \/ (e = SystemExit 0
          /\ exists status,
               reports_of (journal st')
               = (reports_of (journal st) ++ [status])%list)
  end.

Definition ends {World A : Type} (m : M World A) (Q : A -> Prop)
  (E : exn -> Prop) : Prop :=
  forall st, ended Q E st (m st).

(** A warehouse that completes one statement and then loses its
    connection: its state counts the statements it has completed. *)
Definition one_statement_warehouse (query : string) (done : nat)
  : result (ResultSet * string) * nat :=
  match done with
  | O => (Ok ([], "SUCCEEDED"), 1%nat)
  | S _ => (Raise ValueError, done)
  end.

(** The dict of new encodings that holds the given batches of string
    pairs under the given schema names, in order. *)
Definition encodings_dict (d : list (string * list (string * string)))
  : dict value (list pair) :=
  map (fun kv => (VStr (fst kv), map str_pair (snd kv))) d.

(** A day with one table of [baseball_stagingus], a single recent fixture
    and two new encodings; and a day on which no table is found. *)
Definition one_fixture_day : Athena.warehouse :=
  Athena.mkWarehouse
    (Athena.answer ["table_name"; "table_schema"]
       [[VStr "fixturemarkets_fmt"; VStr "baseball_stagingus"]])
    (Athena.answer ["FixtureKey"] [[VStr "fk-1"]])
    (Athena.answer ["SelectionSuspensionReasons"] [[VStr "A"]; [VStr "B"]])
    [] [].

Definition no_tables_day : Athena.warehouse :=
  Athena.mkWarehouse
    (Athena.answer ["table_name"; "table_schema"] [])
    (Athena.answer ["FixtureKey"] [[VStr "fk-1"]; [VStr "fk-2"]])
    (Athena.answer ["SelectionSuspensionReasons"] [[VStr "A"]; [VStr "B"]])
    [] [].

(** A string without the quote that delimits a value in a statement. *)
Fixpoint quote_free (s : string) : bool :=
  match s with
  | EmptyString => true
  | String c rest => negb (Ascii.eqb c "'"%char) && quote_free rest
  end.

(* ===================================================================== *)
(** * Inside [query_execution]: start, poll, fetch *)
(* ===================================================================== *)

(** The body of [query_execution] over the three calls of the warehouse
    client, each a step on the state of the warehouse: starting a query
    gives its id, asking for the execution gives its state, fetching gives
    the rows.  The loop [while True] runs on fuel, one unit per poll;
    [None] means the fuel ran out before a final state was seen.  The
    pause between two polls is left out. *)
Module Polling.

Section Client.

Variable World : Type.
Variable start_query_execution : string -> World -> result string * World.
Variable get_query_execution : string -> World -> result string * World.
Variable get_query_results : string -> World -> result ResultSet * World.

Definition possible_statuses : list string :=
  ["QUEUED"; "RUNNING"; "SUCCEEDED"; "FAILED"; "CANCELLED"].

(** [status in possible_statuses[2:]]. *)
Definition is_final (status : string) : bool :=
  existsb (String.eqb status) (skipn 2 possible_statuses).

(** The polling loop.  An exception of the client is caught by
    [except Exception], whose handler raises a string, which is a
    [TypeError]; an exit is not caught. *)
Fixpoint poll (fuel : nat) (query_id : string) (w : World)
  : option (result string * World) :=
  match fuel with
  | O => None
  | S fuel' =>
      match get_query_execution query_id w with
      | (Ok status, w') =>
          if is_final status then Some (Ok status, w')
          else poll fuel' query_id w'
      | (Raise e, w') =>
          if is_exit e then Some (Raise e, w') else Some (Raise TypeError, w')
      end
  end.

Definition query_execution (fuel : nat) (query : string) (w : World)
  : option (result (ResultSet * string) * World) :=
  match start_query_execution query w with
  | (Raise e, w1) => Some (Raise e, w1)
  | (Ok query_id, w1) =>
      match poll fuel query_id w1 with
      | None => None
      | Some (Raise e, w2) => Some (Raise e, w2)
      | Some (Ok status, w2) =>
          match get_query_results query_id w2 with
          | (Ok rows, w3) => Some (Ok (rows, status), w3)
          | (Raise e, w3) => Some (Raise e, w3)
          end
      end
  end.

(** The execution [query_id] is seen in a state that is not final at each
    of the next [k] polls from [w], and at the poll after them the client
    gives a final state or raises. *)
Fixpoint settles_after (k : nat) (query_id : string) (w : World) : bool :=
  match get_query_execution query_id w with
  | (Ok status, w') =>
      match k with
      | O => is_final status
      | S k' => negb (is_final status) && settles_after k' query_id w'
      end
  | (Raise _, _) =>
      match k with
      | O => true
      | S _ => false
      end
  end.

End Client.

(** A client whose state is the number of polls still to come back
    [RUNNING]; it then gives [final], and has the given rows. *)
Definition countdown_start (query : string) (n : nat) : result string * nat :=
  (Ok "q-1", n).

Definition countdown_get (final : string) (query_id : string) (n : nat)
  : result string * nat :=
  match n with
  | O => (Ok final, O)
  | S n' => (Ok "RUNNING", n')
  end.

Definition countdown_results (rows : ResultSet) (query_id : string) (n : nat)
  : result ResultSet * nat :=
  (Ok rows, n).

(** A client that cannot tell the state of an execution. *)
Definition broken_get (query_id : string) (n : nat) : result string * nat :=
  (Raise KeyError, n).

End Polling.

(** An entry whose upper-cased form is made of keys of the symbol
    table. *)
Definition decodable (v : value) : Prop :=
  forall s, v = VStr s -> Forall known_symbol (list_ascii_of_string (upper s)).

(** "Null and empty entries are no data, never an error", as a property
    of one answer: the answer formats to a batch, and the decoding step
    does on the batch what it does on the batch without its blank
    entries. *)
Definition blanks_are_no_data (answer : ResultSet) : Prop :=
  exists batch,
    format_query_results answer true = Ok batch
    /\ decode_new_encodings batch
       = decode_new_encodings (filter (fun v => negb (is_blank v)) batch).

(** An answer with the encodings ["A"] and ["B"] and, between them, a
    null cell: a cell that carries no text at all. *)
Definition null_cell_answer : ResultSet :=
  [ [[("VarCharValue", VStr "SelectionSuspensionReasons")]];
    [[("VarCharValue", VStr "A")]];
    [[]];
    [[("VarCharValue", VStr "B")]] ].

Definition null_cell_day : Athena.warehouse :=
  Athena.mkWarehouse
    (Athena.answer ["table_name"; "table_schema"]
       [[VStr "fixturemarkets_fmt"; VStr "baseball_stagingus"]])
    (Athena.answer ["FixtureKey"] [[VStr "fk-1"]; [VStr "fk-2"]])
    null_cell_answer
    [] [].

(** "One insertion per pair and one outcome per pair", as a property of
    one call of the writer: the call returns, the journal has grown by the
    insertions of all the pairs in order, each with its status, and the
    result is the list of these statuses unless all are ["SUCCEEDED"]. *)
Definition reports_each_pair {World : Type}
  (athena : string -> World -> result (ResultSet * string) * World)
  (schema target : string) (encodings : list (string * string))
  (st : state World) : Prop :=
  exists statuses st' r,
    insert_into_encodings_table World athena (VStr schema)
      (map str_pair encodings) st = (Ok r, st')
    /\ length statuses = length encodings
    /\ journal st'
       = (journal st
          ++ map (insertion target) (combine encodings statuses))%list
    /\ (forallb (fun status => String.eqb status "SUCCEEDED") statuses
        = false -> r = SList statuses)
    /\ (forallb (fun status => String.eqb status "SUCCEEDED") statuses
        = true -> r = SStr "SUCCEEDED").

(* ===================================================================== *)
(** * The decoder *)
(* ===================================================================== *)

Lemma length_list_ascii_of_string (s : string) :
  length (list_ascii_of_string s) = String.length s.
Proof.
  induction s as [| c s IH]; simpl; [reflexivity | now rewrite IH].
Qed.

Lemma all_strs_known (cs : list ascii) :
  Forall known_symbol cs ->
  exists labels,
    all_strs (map reasons_get cs) = Some labels
    /\ Forall2 (fun c label =>
                  lookup Ascii.eqb SUSPENSION_REASONS c = Some label)
               cs labels.
Proof.
  induction 1 as [| c cs [label Hc] _ [labels [Hl HF]]].
  - exists []. split; [reflexivity | constructor].
  - exists (label :: labels). split.
    + simpl. unfold reasons_get at 1. rewrite Hc, Hl. reflexivity.
    + constructor; assumption.
Qed.

Lemma all_strs_unknown (cs : list ascii) (c : ascii) :
  In c cs ->
  lookup Ascii.eqb SUSPENSION_REASONS c = None ->
  all_strs (map reasons_get cs) = None.
Proof.
  intros Hin Hc. induction cs as [| a cs IH]; [contradiction |].
  simpl. destruct Hin as [-> | Hin].
  - unfold reasons_get at 1. rewrite Hc. reflexivity.
  - destruct (reasons_get a); try reflexivity.
    rewrite (IH Hin). reflexivity.
Qed.

Lemma decode_labels (s : string) :
  Forall known_symbol (list_ascii_of_string s) ->
  exists labels,
    decode_suspension_reason (VStr s) = Ok (VStr (String.concat ";" labels))
    /\ Forall2 (fun c label =>
                  lookup Ascii.eqb SUSPENSION_REASONS c = Some label)
               (list_ascii_of_string s) labels.
Proof.
  intros H. destruct (all_strs_known _ H) as [labels [Hl HF]].
  exists labels. split; [| exact HF].
  unfold decode_suspension_reason, str_join. rewrite Hl. reflexivity.
Qed.

Lemma decode_unmapped_raises (s : string) (c : ascii) :
  In c (list_ascii_of_string s) ->
  lookup Ascii.eqb SUSPENSION_REASONS c = None ->
  decode_suspension_reason (VStr s) = Raise TypeError.
Proof.
  intros Hin Hc. unfold decode_suspension_reason, str_join.
  rewrite (all_strs_unknown _ c Hin Hc). reflexivity.
Qed.

Lemma decode_str_not_none (s : string) :
  decode_suspension_reason (VStr s) <> Ok VNone.
Proof.
  unfold decode_suspension_reason.
  destruct (str_join ";" (map reasons_get (list_ascii_of_string s)));
    discriminate.
Qed.

(** C4. For a string [s] made only of keys of the symbol table, the
    decoder returns the labels of the characters of [s] joined with [";"]:
    one label per character, the label of the i-th character in i-th
    place, so as many labels as [s] has characters. *)
Theorem decode_known_symbols (s : string) :
  Forall known_symbol (list_ascii_of_string s) ->
  exists labels,
    decode_suspension_reason (VStr s) = Ok (VStr (String.concat ";" labels))
    /\ length labels = String.length s
    /\ Forall2 (fun c label =>
                  lookup Ascii.eqb SUSPENSION_REASONS c = Some label)
               (list_ascii_of_string s) labels.
Proof.
  intros H. destruct (decode_labels s H) as [labels [Hd HF]].
  exists labels. repeat split; try assumption.
  rewrite <- (Forall2_length HF). apply length_list_ascii_of_string.
Qed.

Lemma decode_known_symbols_witness :
  exists labels,
    decode_suspension_reason (VStr "AB") = Ok (VStr (String.concat ";" labels))
    /\ length labels = String.length "AB"
    /\ Forall2 (fun c label =>
                  lookup Ascii.eqb SUSPENSION_REASONS c = Some label)
               (list_ascii_of_string "AB") labels.
Proof.
  apply (decode_known_symbols "AB").
  repeat constructor; eexists; reflexivity.
Defined.

(** C1. The character [Z] is not a key of the symbol table, and decoding
    ["AZ"] does not return ["StalePricing;Unknown"]: the lookup yields
    [None] for [Z] and joining the labels raises [TypeError]. *)
Theorem decode_AZ_raises :
  reasons_get "Z"%char = VNone
  /\ map reasons_get (list_ascii_of_string "AZ") = [VStr "StalePricing"; VNone]
  /\ decode_suspension_reason (VStr "AZ") = Raise TypeError
  /\ decode_suspension_reason (VStr "AZ") <> Ok (VStr "StalePricing;Unknown").
Proof.
  repeat split; try reflexivity.
  rewrite (decode_unmapped_raises "AZ" "Z"%char); [discriminate | | reflexivity].
  simpl. auto.
Qed.

(** C7. Decoding the empty string and decoding [None] both return, and
    what they return is a "no decode" value: the empty string for the
    first, [None] for the second. *)
Theorem decode_empty_and_none :
  decode_suspension_reason (VStr "") = Ok (VStr "")
  /\ decode_suspension_reason VNone = Ok VNone
  /\ no_decode (VStr "") /\ no_decode VNone.
Proof.
  unfold no_decode. repeat split; auto.
Qed.

(** C10. The decoder returns [None] exactly when its input is not a
    string; the empty string is a string and decodes to the empty string,
    which is not [None]. *)
Theorem decode_none_iff_not_str :
  (forall v, decode_suspension_reason v = Ok VNone <-> is_str v = false)
  /\ decode_suspension_reason (VStr "") = Ok (VStr "")
  /\ VStr "" <> VNone.
Proof.
  repeat split; try discriminate.
  - destruct v; simpl; try reflexivity.
    intros H. exfalso. exact (decode_str_not_none s H).
  - destruct v; simpl; try reflexivity; discriminate.
Qed.

(* ===================================================================== *)
(** * The decoding step *)
(* ===================================================================== *)

Lemma upper_empty (s : string) : upper s = "" -> s = "".
Proof.
  destruct s; simpl; [reflexivity | discriminate].
Qed.

Lemma py_bool_str (s : string) : s <> "" -> py_bool (VStr s) = true.
Proof.
  intros H. simpl. destruct (String.eqb_spec s ""); [contradiction | reflexivity].
Qed.

Lemma blank_is_falsy (v : value) : is_blank v = true -> py_bool v = false.
Proof.
  destruct v as [| z | [| c s]]; simpl; intros H; try discriminate; reflexivity.
Qed.

Lemma cell_blank_or_truthy (v : value) :
  is_cell v = true -> py_bool v = negb (is_blank v).
Proof.
  destruct v as [| z | [| c s]]; simpl; intros H; try discriminate; reflexivity.
Qed.

Lemma filter_truthy_after_blanks (batch : list value) :
  filter (fun x => py_bool x) (filter (fun v => negb (is_blank v)) batch)
  = filter (fun x => py_bool x) batch.
Proof.
  induction batch as [| v batch IH]; simpl; [reflexivity |].
  destruct (is_blank v) eqn:Hb; simpl.
  - rewrite (blank_is_falsy v Hb). exact IH.
  - destruct (py_bool v); now rewrite IH.
Qed.

Lemma filter_truthy_cells (batch : list value) :
  Forall (fun v => is_cell v = true) batch ->
  filter (fun x => py_bool x) batch
  = filter (fun v => negb (is_blank v)) batch.
Proof.
  induction 1 as [| v batch Hv _ IH]; simpl; [reflexivity |].
  rewrite (cell_blank_or_truthy v Hv), IH. reflexivity.
Qed.

Lemma filter_truthy_blanks (batch : list value) :
  Forall (fun v => is_blank v = true) batch ->
  filter (fun x => py_bool x) batch = [].
Proof.
  induction 1 as [| v batch Hv _ IH]; simpl; [reflexivity |].
  now rewrite (blank_is_falsy v Hv).
Qed.

Lemma map_result_Forall2 {A B : Type} (f : A -> result B) (l : list A)
  (ys : list B) :
  map_result f l = Ok ys -> Forall2 (fun x y => f x = Ok y) l ys.
Proof.
  revert ys. induction l as [| x l IH]; simpl; intros ys H.
  - injection H as <-. constructor.
  - destruct (f x) as [y | e] eqn:Hx; simpl in H; [| discriminate].
    destruct (map_result f l) as [ys' | e] eqn:Hl; simpl in H; [| discriminate].
    injection H as <-. constructor; [exact Hx | apply IH; reflexivity].
Qed.

Lemma map_fst_combine {A B : Type} (l : list A) (ys : list B) :
  length l = length ys -> map fst (combine l ys) = l.
Proof.
  revert ys. induction l as [| x l IH]; intros [| y ys] H; simpl in *;
    try discriminate; [reflexivity |].
  f_equal. apply IH. now injection H.
Qed.

(** What a successful decoding step returns: the truthy entries, each
    paired with the decoding of its upper-cased form. *)
Lemma decode_new_encodings_pairs (batch : list value) (pairs : list pair) :
  decode_new_encodings batch = Ok (Some pairs) ->
  map fst pairs = filter (fun x => py_bool x) batch
  /\ Forall (fun p : pair =>
               exists s, fst p = VStr s
                         /\ decode_suspension_reason (VStr (upper s))
                            = Ok (snd p)) pairs.
Proof.
  unfold decode_new_encodings.
  set (kept := filter (fun x => py_bool x) batch).
  destruct (length kept <? 1)%nat; [discriminate |].
  destruct (map_result _ kept) as [decoded | e] eqn:Hm; simpl; [| discriminate].
  intros H. injection H as <-.
  apply map_result_Forall2 in Hm. split.
  - apply map_fst_combine. exact (Forall2_length Hm).
  - clear -Hm. induction Hm as [| x y l ys Hxy _ IH]; simpl; constructor;
      [| exact IH].
    destruct x as [| z | s]; simpl in Hxy; try discriminate.
    exists s. split; [reflexivity | exact Hxy].
Qed.

(** C9. Every pair assembled for insertion is an observed encoding [s],
    in the case it was observed in, with the decoding of [upper s]; so two
    entries that differ only in case give two different keys with the same
    decoded value. *)
Theorem pair_keeps_case_decodes_upper :
  (forall batch pairs,
     decode_new_encodings batch = Ok (Some pairs) ->
     map fst pairs = filter (fun x => py_bool x) batch
     /\ Forall (fun p : pair =>
                  exists s, fst p = VStr s
                            /\ decode_suspension_reason (VStr (upper s))
                               = Ok (snd p)) pairs)
  /\ (forall s1 s2,
        s1 <> s2 -> upper s1 = upper s2 ->
        Forall known_symbol (list_ascii_of_string (upper s1)) ->
        exists d,
          decode_new_encodings [VStr s1; VStr s2]
          = Ok (Some [(VStr s1, d); (VStr s2, d)])
          /\ VStr s1 <> VStr s2).
Proof.
  split; [exact decode_new_encodings_pairs |].
  intros s1 s2 Hne Hup Hk.
  destruct (decode_labels _ Hk) as [labels [Hd _]].
  exists (VStr (String.concat ";" labels)).
  assert (H1 : s1 <> "").
  { intros ->. apply Hne. symmetry. apply upper_empty. now rewrite <- Hup. }
  assert (H2 : s2 <> "").
  { intros ->. apply Hne. apply upper_empty. now rewrite Hup. }
  split; [| congruence].
  unfold decode_new_encodings.
  cbn [filter]. rewrite (py_bool_str s1 H1), (py_bool_str s2 H2).
  cbn [length Nat.ltb Nat.leb map_result method_upper bind_result].
  rewrite <- Hup, Hd. reflexivity.
Qed.

Lemma pair_keeps_case_decodes_upper_witness :
  (map fst [(VStr "ab", VStr "StalePricing;Settled")]
   = filter (fun x => py_bool x) [VStr "ab"; VNone])
  /\ exists d,
       decode_new_encodings [VStr "ab"; VStr "Ab"]
       = Ok (Some [(VStr "ab", d); (VStr "Ab", d)])
       /\ VStr "ab" <> VStr "Ab".
Proof.
  split.
  - apply (proj1 pair_keeps_case_decodes_upper [VStr "ab"; VNone]).
    reflexivity.
  - apply (proj2 pair_keeps_case_decodes_upper "ab" "Ab").
    + discriminate.
    + reflexivity.
    + repeat constructor; eexists; reflexivity.
Defined.

(* ===================================================================== *)
(** * The registry writer *)
(* ===================================================================== *)

Lemma queries_of_app (j1 j2 : list event) :
  queries_of (j1 ++ j2)%list = (queries_of j1 ++ queries_of j2)%list.
Proof.
  unfold queries_of. apply flat_map_app.
Qed.

Lemma queries_of_insertions (target : string)
  (encodings : list (string * string)) (statuses : list string) :
  length statuses = length encodings ->
  queries_of (map (insertion target) (combine encodings statuses))
  = map (fun p => INSERT_QUERY target (fst p) (snd p)) encodings.
Proof.
  revert statuses.
  induction encodings as [| p encodings IH]; intros [| s statuses] H;
    simpl in *; try discriminate; [reflexivity |].
  f_equal. apply IH. now injection H.
Qed.

Lemma Athena_run_answers (q : string) (w : Athena.warehouse) :
  exists rows status w', Athena.run q w = (Ok (rows, status), w').
Proof.
  unfold Athena.run.
  destruct (Athena.contains "INSERT INTO " q).
  - destruct (Athena.parse_insert q) as [[target [encoded decoded]] |];
      [destruct (existsb _ _) |]; eauto.
  - destruct (Athena.contains "information_schema.columns" q); eauto.
    destruct (Athena.contains ".kafka_fixturemarkets" q); eauto.
Qed.

Section Insertions.

Variable World : Type.
Variable athena : string -> World -> result (ResultSet * string) * World.

(** The warehouse brings every statement to a final status. *)
Hypothesis athena_answers :
  forall q w, exists rows status w', athena q w = (Ok (rows, status), w').

Variables schema target : string.
Hypothesis schema_known :
  lookup String.eqb ENCODINGS_TABLE_SCHEMAS schema = Some target.

(** The loop: every pair is sent, its status is appended. *)
Lemma insert_loop (encodings : list (string * string)) :
  forall (statuses : list string) (st : state World),
  exists new st',
    for_each World (insert_one World athena (VStr schema)) statuses
             (map str_pair encodings) st
    = (Ok (statuses ++ new)%list, st')
    /\ length new = length encodings
    /\ journal st'
       = (journal st ++ map (insertion target) (combine encodings new))%list.
Proof.
  induction encodings as [| [e d] encodings IH]; intros statuses st.
  - exists [], st. simpl. unfold ret. now rewrite !app_nil_r.
  - destruct (athena_answers (INSERT_QUERY target e d) (world st))
      as (rows & status & w' & Ha).
    destruct (IH (statuses ++ [status])%list
                 (mkState w' (journal st
                              ++ [Executed (INSERT_QUERY target e d)
                                           (Ok status)])%list))
      as (new & st' & Hrun & Hlen & Hj).
    exists (status :: new), st'. repeat split.
    + change (map str_pair ((e, d) :: encodings))
        with ((VStr e, VStr d) :: map str_pair encodings).
      cbn [for_each].
      unfold bind at 1. unfold insert_one at 1.
      unfold bind, lift, subscript, values_tuple, query_execution.
      rewrite schema_known. cbv beta iota.
      change (text_lines _) with (INSERT_QUERY target e d).
      rewrite Ha. cbv beta iota. unfold ret at 1. rewrite Hrun.
      now rewrite <- app_assoc.
    + simpl. now rewrite Hlen.
    + rewrite Hj. cbn [journal combine map]. now rewrite <- app_assoc.
Qed.

(** The whole call. *)
Lemma insert_run (encodings : list (string * string)) (st : state World) :
  exists statuses st',
    insert_into_encodings_table World athena (VStr schema)
      (map str_pair encodings) st
    = (Ok (if forallb (fun status => String.eqb status "SUCCEEDED") statuses
           then SStr "SUCCEEDED" else SList statuses), st')
    /\ length statuses = length encodings
    /\ journal st'
       = (journal st
          ++ map (insertion target) (combine encodings statuses))%list.
Proof.
  destruct encodings as [| p encodings].
  - exists [], st. simpl. unfold ret. now rewrite app_nil_r.
  - destruct (insert_loop (p :: encodings) [] st)
      as (statuses & st' & Hrun & Hlen & Hj).
    exists statuses, st'. repeat split; try assumption.
    unfold insert_into_encodings_table.
    cbn [map length Nat.ltb Nat.leb].
    unfold bind. cbn [map] in Hrun. rewrite Hrun. cbn [app].
    destruct (forallb _ statuses); reflexivity.
Qed.

(** C5, as the code has it.  For a schema that has an encodings table and
    a warehouse that brings every statement to a final status (no
    statement raises): given n pairs, the writer sends one [INSERT] per
    pair, in pair order; when not every insertion succeeded it returns the
    list of the n statuses, the i-th being the status of the i-th pair's
    statement, and the single string ["SUCCEEDED"] only when all of them
    succeeded. *)
Theorem insert_reports_each_pair (encodings : list (string * string))
  (st : state World) :
  exists statuses st' r,
    insert_into_encodings_table World athena (VStr schema)
      (map str_pair encodings) st = (Ok r, st')
    /\ length statuses = length encodings
    /\ journal st'
       = (journal st
          ++ map (insertion target) (combine encodings statuses))%list
    /\ (forallb (fun status => String.eqb status "SUCCEEDED") statuses
        = false -> r = SList statuses)
    /\ (forallb (fun status => String.eqb status "SUCCEEDED") statuses
        = true -> r = SStr "SUCCEEDED").
Proof.
  destruct (insert_run encodings st) as (statuses & st' & Hrun & Hlen & Hj).
  exists statuses, st'.
  eexists. split; [exact Hrun |]. repeat split; try assumption.
  - intros ->. reflexivity.
  - intros ->. reflexivity.
Qed.

End Insertions.

Lemma insert_reports_each_pair_witness :
  exists statuses st' r,
    insert_into_encodings_table Athena.warehouse Athena.run
      (VStr "baseball_stagingus")
      (map str_pair [("A", "StalePricing"); ("B", "Settled")])
      (Athena.start (Athena.baseball [] ["B"] [])) = (Ok r, st')
    /\ length statuses = 2%nat
    /\ journal st'
       = ([] ++ map (insertion "mlb_sit_views")
                    (combine [("A", "StalePricing"); ("B", "Settled")]
                             statuses))%list
    /\ (forallb (fun status => String.eqb status "SUCCEEDED") statuses
        = false -> r = SList statuses)
    /\ (forallb (fun status => String.eqb status "SUCCEEDED") statuses
        = true -> r = SStr "SUCCEEDED").
Proof.
  apply (insert_reports_each_pair Athena.warehouse Athena.run
           Athena_run_answers "baseball_stagingus" "mlb_sit_views").
  reflexivity.
Defined.


(* ===================================================================== *)
(** * Runs of the job *)
(* ===================================================================== *)

(** The test of the early exits fails as long as no list has two items. *)
Lemma any_longer_than_one_short {A : Type} (d : dict value (list A)) :
  Forall (fun kv => length (snd kv) <= 1) d ->
  any_longer_than_one d = false.
Proof.
  unfold any_longer_than_one.
  induction 1 as [| kv d Hkv _ IH]; simpl; [reflexivity |].
  rewrite IH, orb_false_r. apply Nat.ltb_ge. exact Hkv.
Qed.

(** C2. One table, two recent fixtures and exactly one new encoding,
    ["A"]: the pair [("A", "StalePricing")] is assembled, the test for
    "no new encodings" asks for a schema with more than one pair, and the
    job reports "No new encodings" and exits without sending any
    [INSERT]; the registry stays empty.  With two new encodings both are
    inserted. *)
Theorem single_new_encoding_not_inserted :
  decode_new_encodings [VStr "A"] = Ok (Some [(VStr "A", VStr "StalePricing")])
  /\ any_longer_than_one
       [(VStr "baseball_stagingus", [(VStr "A", VStr "StalePricing")])]
     = false
  /\ fst (Athena.run_main (Athena.baseball [VStr "A"] [] []))
     = Raise (SystemExit 0)
  /\ existsb (Athena.contains "INSERT INTO ")
       (queries_of
          (journal (snd (Athena.run_main (Athena.baseball [VStr "A"] [] [])))))
     = false
  /\ skipn 3
       (journal (snd (Athena.run_main (Athena.baseball [VStr "A"] [] []))))
     = [Reported (SStr "SUCCEEDED - No new encodings")]
  /\ Athena.registry
       (world (snd (Athena.run_main (Athena.baseball [VStr "A"] [] []))))
     = []
  /\ Athena.registry
       (world (snd (Athena.run_main
                      (Athena.baseball [VStr "A"; VStr "B"] [] []))))
     = [("mlb_sit_views", ("A", "StalePricing"));
        ("mlb_sit_views", ("B", "Settled"))].
Proof.
  repeat split; vm_compute; reflexivity.
Qed.

(** C6. One table with the new encodings ["A"] and ["B"], where the
    warehouse fails the insertion of ["B"]: both statements are sent and
    the row of ["A"] stays stored, the writer returns the list
    [["SUCCEEDED"; "FAILED"]]; the job then extends its status, a list,
    with a string, which raises [TypeError], and the handler of the job
    raises [TypeError] again when it reports the exception: the run ends
    with an exception and no report. *)
Theorem partial_failure_raises :
  fst (insert_into_encodings_table Athena.warehouse Athena.run
         (VStr "baseball_stagingus")
         [(VStr "A", VStr "StalePricing"); (VStr "B", VStr "Settled")]
         (Athena.start (Athena.baseball [] ["B"] [])))
  = Ok (SList ["SUCCEEDED"; "FAILED"])
  /\ status_add (SList ["SUCCEEDED"; "FAILED"]) " - Encodings added : "
     = Raise TypeError
  /\ fst (Athena.run_main (Athena.baseball [VStr "A"; VStr "B"] ["B"] []))
     = Raise TypeError
  /\ skipn 3
       (journal (snd (Athena.run_main
                        (Athena.baseball [VStr "A"; VStr "B"] ["B"] []))))
     = [Executed (INSERT_QUERY "mlb_sit_views" "A" "StalePricing")
                 (Ok "SUCCEEDED");
        Executed (INSERT_QUERY "mlb_sit_views" "B" "Settled") (Ok "FAILED")]
  /\ Athena.registry
       (world (snd (Athena.run_main
                      (Athena.baseball [VStr "A"; VStr "B"] ["B"] []))))
     = [("mlb_sit_views", ("A", "StalePricing"))].
Proof.
  repeat split; vm_compute; reflexivity.
Qed.

(* ===================================================================== *)
(** * The decoder: which strings decode, and what a decoding determines *)
(* ===================================================================== *)

Lemma lookup_In {K V : Type} (eqb : K -> K -> bool)
  (eqb_eq : forall a b, eqb a b = true -> a = b) (d : dict K V) (k : K) (v : V) :
  lookup eqb d k = Some v -> In (k, v) d.
Proof.
  induction d as [| [k' v'] d IH]; simpl; [discriminate |].
  destruct (eqb k' k) eqn:E.
  - intros H. injection H as ->. left. now rewrite (eqb_eq _ _ E).
  - intros H. right. exact (IH H).
Qed.

Lemma label_of_In (c : ascii) (label : string) :
  label_of c label -> In (c, label) SUSPENSION_REASONS.
Proof.
  apply lookup_In. intros a b H. now apply Ascii.eqb_eq.
Qed.

(** Every label of the table is non-empty and free of [";"]. *)
Lemma label_of_plain (c : ascii) (label : string) :
  label_of c label -> plain_label label = true.
Proof.
  intros H. apply label_of_In in H.
  assert (Hall : forallb (fun kv => plain_label (snd kv)) SUSPENSION_REASONS
                 = true) by reflexivity.
  rewrite forallb_forall in Hall. exact (Hall _ H).
Qed.

(** No two keys of the table share a label. *)
Lemma label_of_inj (c1 c2 : ascii) (label : string) :
  label_of c1 label -> label_of c2 label -> c1 = c2.
Proof.
  intros H1 H2. apply label_of_In in H1, H2.
  assert (Hall : forallb
                   (fun p =>
                      forallb
                        (fun q => implb (String.eqb (snd p) (snd q))
                                        (Ascii.eqb (fst p) (fst q)))
                        SUSPENSION_REASONS)
                   SUSPENSION_REASONS = true) by reflexivity.
  rewrite forallb_forall in Hall. specialize (Hall _ H1).
  rewrite forallb_forall in Hall. specialize (Hall _ H2).
  cbn [fst snd] in Hall. rewrite String.eqb_refl in Hall.
  now apply Ascii.eqb_eq.
Qed.

Lemma all_strs_labels (cs : list ascii) (labels : list string) :
  all_strs (map reasons_get cs) = Some labels ->
  Forall2 label_of cs labels.
Proof.
  revert labels. induction cs as [| c cs IH]; simpl; intros labels H.
  - injection H as <-. constructor.
  - unfold reasons_get at 1 in H.
    destruct (lookup Ascii.eqb SUSPENSION_REASONS c) as [l |] eqn:Hc;
      [| discriminate].
    destruct (all_strs (map reasons_get cs)) as [ls |]; [| discriminate].
    injection H as <-. constructor; [exact Hc | now apply IH].
Qed.

Lemma labels_known (cs : list ascii) (labels : list string) :
  Forall2 label_of cs labels -> Forall known_symbol cs.
Proof.
  induction 1 as [| c l cs ls Hc _ IH]; constructor;
    [now exists l | exact IH].
Qed.

Lemma decode_ok_labels (s : string) (r : value) :
  decode_suspension_reason (VStr s) = Ok r ->
  exists labels,
    r = VStr (String.concat ";" labels)
    /\ Forall2 label_of (list_ascii_of_string s) labels.
Proof.
  unfold decode_suspension_reason, str_join.
  destruct (all_strs (map reasons_get (list_ascii_of_string s)))
    as [labels |] eqn:H; [| discriminate].
  intros E. injection E as <-. exists labels. split; [reflexivity |].
  now apply all_strs_labels.
Qed.

Lemma known_or_unmapped (cs : list ascii) :
  Forall known_symbol cs
  \/ exists c, In c cs /\ lookup Ascii.eqb SUSPENSION_REASONS c = None.
Proof.
  induction cs as [| c cs [IH | [c' [Hin Hc']]]].
  - left. constructor.
  - destruct (lookup Ascii.eqb SUSPENSION_REASONS c) as [l |] eqn:Hc.
    + left. constructor; [now exists l | exact IH].
    + right. exists c. split; [now left | exact Hc].
  - right. exists c'. split; [now right | exact Hc'].
Qed.

Lemma decode_raises_only_TypeError (v : value) (e : exn) :
  decode_suspension_reason v = Raise e -> e = TypeError.
Proof.
  destruct v as [| z | t]; simpl; try discriminate.
  unfold str_join.
  destruct (all_strs (map reasons_get (list_ascii_of_string t)));
    intros H; [discriminate | now injection H].
Qed.

(** X1. A string decodes exactly when all its characters are keys of the
    symbol table; otherwise the decoder raises [TypeError], and it raises
    nothing else on any input. *)
Theorem decode_succeeds_iff_known (s : string) :
  (Forall known_symbol (list_ascii_of_string s)
   <-> exists r, decode_suspension_reason (VStr s) = Ok (VStr r))
  /\ ((exists c, In c (list_ascii_of_string s)
                 /\ lookup Ascii.eqb SUSPENSION_REASONS c = None)
      <-> decode_suspension_reason (VStr s) = Raise TypeError)
  /\ (forall v e, decode_suspension_reason v = Raise e -> e = TypeError).
Proof.
  repeat split.
  - intros H. destruct (decode_labels s H) as [labels [Hd _]]. eauto.
  - intros [r Hr].
    destruct (known_or_unmapped (list_ascii_of_string s))
      as [H | [c [Hin Hc]]]; [exact H |].
    rewrite (decode_unmapped_raises s c Hin Hc) in Hr. discriminate.
  - intros [c [Hin Hc]]. exact (decode_unmapped_raises s c Hin Hc).
  - intros Hr.
    destruct (known_or_unmapped (list_ascii_of_string s))
      as [H | Hex]; [| exact Hex].
    destruct (decode_labels s H) as [labels [Hd _]].
    rewrite Hd in Hr. discriminate.
  - exact decode_raises_only_TypeError.
Qed.

Lemma decode_succeeds_iff_known_witness :
  (exists r, decode_suspension_reason (VStr "KA-") = Ok (VStr r))
  /\ decode_suspension_reason (VStr "A B") = Raise TypeError.
Proof.
  split.
  - apply (proj1 (proj1 (decode_succeeds_iff_known "KA-"))).
    repeat constructor; eexists; reflexivity.
  - apply (proj1 (proj1 (proj2 (decode_succeeds_iff_known "A B")))).
    exists " "%char. split; [simpl; auto | reflexivity].
Defined.

Lemma list_ascii_of_string_app (s1 s2 : string) :
  list_ascii_of_string (s1 ++ s2)
  = (list_ascii_of_string s1 ++ list_ascii_of_string s2)%list.
Proof.
  induction s1 as [| c s1 IH]; simpl; [reflexivity | now rewrite IH].
Qed.

Lemma append_empty_right (s : string) : s ++ "" = s.
Proof.
  induction s as [| c s IH]; simpl; [reflexivity | now rewrite IH].
Qed.

Lemma append_assoc (a b c : string) : (a ++ b) ++ c = a ++ (b ++ c).
Proof.
  induction a as [| x a IH]; simpl; [reflexivity | now rewrite IH].
Qed.

Lemma concat_cons (x : string) (labels : list string) :
  String.concat ";" (x :: labels) = x ++ join_rest labels.
Proof.
  destruct labels; simpl; [now rewrite append_empty_right | reflexivity].
Qed.

Lemma join_rest_cons (labels : list string) :
  labels <> [] -> join_rest labels = ";" ++ String.concat ";" labels.
Proof.
  destruct labels; [contradiction | reflexivity].
Qed.

Lemma concat_app (l1 l2 : list string) :
  l1 <> [] -> l2 <> [] ->
  String.concat ";" (l1 ++ l2)
  = String.concat ";" l1 ++ ";" ++ String.concat ";" l2.
Proof.
  intros H1 H2. induction l1 as [| x l1 IH]; [contradiction |].
  rewrite <- app_comm_cons, !concat_cons.
  destruct l1 as [| y l1].
  - cbn [app join_rest]. rewrite append_empty_right.
    now rewrite (join_rest_cons l2 H2).
  - rewrite (join_rest_cons ((y :: l1) ++ l2)) by discriminate.
    rewrite (join_rest_cons (y :: l1)) by discriminate.
    rewrite IH by discriminate. now rewrite !append_assoc.
Qed.

(** X2. Decoding distributes over concatenation: when two non-empty
    strings decode, their concatenation decodes to the two results joined
    by [";"]. *)
Theorem decode_app (s1 s2 : string) (d1 d2 : string) :
  s1 <> "" -> s2 <> "" ->
  decode_suspension_reason (VStr s1) = Ok (VStr d1) ->
  decode_suspension_reason (VStr s2) = Ok (VStr d2) ->
  decode_suspension_reason (VStr (s1 ++ s2)) = Ok (VStr (d1 ++ ";" ++ d2)).
Proof.
  intros N1 N2 H1 H2.
  destruct (decode_ok_labels _ _ H1) as [l1 [E1 F1]].
  destruct (decode_ok_labels _ _ H2) as [l2 [E2 F2]].
  injection E1 as ->. injection E2 as ->.
  assert (K : Forall known_symbol (list_ascii_of_string (s1 ++ s2))).
  { rewrite list_ascii_of_string_app. apply Forall_app.
    split; eapply labels_known; eassumption. }
  destruct (decode_labels _ K) as [l [Hd Fl]]. rewrite Hd.
  rewrite list_ascii_of_string_app in Fl.
  assert (El : l = (l1 ++ l2)%list).
  { pose proof (Forall2_app F1 F2) as F12. clear -Fl F12.
    revert F12. generalize (l1 ++ l2)%list as l'.
    induction Fl as [| c x cs l Hx _ IH]; intros l' F; inversion F; subst.
    - reflexivity.
    - f_equal; [unfold label_of in *; congruence | now apply IH]. }
  subst l. rewrite concat_app; [reflexivity | |].
  - intros ->. inversion F1 as [E |]. apply N1.
    rewrite <- (string_of_list_ascii_of_string s1), <- E. reflexivity.
  - intros ->. inversion F2 as [E |]. apply N2.
    rewrite <- (string_of_list_ascii_of_string s2), <- E. reflexivity.
Qed.

Lemma decode_app_witness :
  decode_suspension_reason (VStr ("AB" ++ "K"))
  = Ok (VStr ("StalePricing;Settled" ++ ";" ++ "SettlementCorrection")).
Proof.
  apply (decode_app "AB" "K"); try discriminate; reflexivity.
Defined.

Lemma plain_label_parts (label : string) :
  plain_label label = true -> label <> "" /\ semicolon_free label = true.
Proof.
  unfold plain_label. intros H. apply andb_true_iff in H as [H1 H2].
  split; [| exact H2]. intros ->. discriminate.
Qed.

(** Two separator-free strings, each followed by nothing or by a
    separator, are equal when the whole texts are. *)
Lemma head_of_join (x y t1 t2 : string) :
  semicolon_free x = true -> semicolon_free y = true ->
  (t1 = "" \/ exists t, t1 = String ";"%char t) ->
  (t2 = "" \/ exists t, t2 = String ";"%char t) ->
  x ++ t1 = y ++ t2 -> x = y /\ t1 = t2.
Proof.
  revert y. induction x as [| a x IH]; intros [| b y] Hx Hy T1 T2 E;
    simpl in *.
  - now split.
  - exfalso. apply andb_true_iff in Hy as [Hb _].
    destruct T1 as [-> | [t ->]]; [discriminate |].
    injection E as <- _. discriminate.
  - exfalso. apply andb_true_iff in Hx as [Ha _].
    destruct T2 as [-> | [t ->]]; [discriminate |].
    injection E as -> _. discriminate.
  - apply andb_true_iff in Hx as [_ Hx]. apply andb_true_iff in Hy as [_ Hy].
    injection E as -> E.
    destruct (IH y Hx Hy T1 T2 E) as [-> ->]. now split.
Qed.

Lemma join_rest_shape (labels : list string) :
  join_rest labels = "" \/ exists t, join_rest labels = String ";"%char t.
Proof.
  destruct labels; [now left | right; eexists; reflexivity].
Qed.

(** A join of plain labels determines the labels. *)
Lemma concat_plain_inj (l1 l2 : list string) :
  Forall (fun l => plain_label l = true) l1 ->
  Forall (fun l => plain_label l = true) l2 ->
  String.concat ";" l1 = String.concat ";" l2 -> l1 = l2.
Proof.
  intros H1. revert l2.
  induction H1 as [| x l1 Hx H1 IH]; intros l2 H2 E;
    destruct H2 as [| y l2 Hy H2].
  - reflexivity.
  - exfalso. rewrite concat_cons in E.
    destruct (plain_label_parts y Hy) as [Ny _].
    destruct y; [now apply Ny | discriminate].
  - exfalso. rewrite concat_cons in E.
    destruct (plain_label_parts x Hx) as [Nx _].
    destruct x; [now apply Nx | discriminate].
  - rewrite !concat_cons in E.
    destruct (plain_label_parts x Hx) as [_ Sx].
    destruct (plain_label_parts y Hy) as [_ Sy].
    destruct (head_of_join x y _ _ Sx Sy (join_rest_shape l1)
                (join_rest_shape l2) E) as [-> Er].
    f_equal. apply IH; [exact H2 |].
    destruct l1, l2; try reflexivity; try discriminate.
    cbn [join_rest] in Er. now injection Er.
Qed.

Lemma labels_plain (cs : list ascii) (labels : list string) :
  Forall2 label_of cs labels -> Forall (fun l => plain_label l = true) labels.
Proof.
  induction 1 as [| c l cs ls Hc _ IH]; constructor;
    [exact (label_of_plain c l Hc) | exact IH].
Qed.

Lemma labels_determine_symbols (cs1 cs2 : list ascii) (labels : list string) :
  Forall2 label_of cs1 labels -> Forall2 label_of cs2 labels -> cs1 = cs2.
Proof.
  intros H1. revert cs2.
  induction H1 as [| c l cs ls Hc _ IH]; intros cs2 H2; inversion H2; subst.
  - reflexivity.
  - f_equal; [eapply label_of_inj; eassumption | now apply IH].
Qed.

(** X3. The decoder is injective on the strings it decodes: two strings
    with the same decoded text are the same string, so a decoded string
    identifies its encoding. *)
Theorem decode_injective (s1 s2 : string) (d : value) :
  decode_suspension_reason (VStr s1) = Ok d ->
  decode_suspension_reason (VStr s2) = Ok d ->
  s1 = s2.
Proof.
  intros H1 H2.
  destruct (decode_ok_labels _ _ H1) as [l1 [E1 F1]].
  destruct (decode_ok_labels _ _ H2) as [l2 [E2 F2]].
  subst d. injection E2 as E.
  assert (El : l1 = l2).
  { apply concat_plain_inj; [eapply labels_plain | eapply labels_plain |];
      eauto. }
  subst l2.
  rewrite <- (string_of_list_ascii_of_string s1),
          <- (string_of_list_ascii_of_string s2).
  f_equal. exact (labels_determine_symbols _ _ _ F1 F2).
Qed.

Lemma decode_injective_witness : "AB" = "AB".
Proof.
  apply (decode_injective "AB" "AB" (VStr "StalePricing;Settled"));
    reflexivity.
Defined.

(** No lowercase letter is a key of the symbol table. *)
Lemma lowercase_unmapped (c : ascii) :
  upper_char c <> c -> lookup Ascii.eqb SUSPENSION_REASONS c = None.
Proof.
  destruct c as [[] [] [] [] [] [] [] []]; vm_compute; intros H;
    try reflexivity; exfalso; now apply H.
Qed.

Lemma upper_changes_some (s : string) :
  upper s <> s -> exists c, In c (list_ascii_of_string s) /\ upper_char c <> c.
Proof.
  induction s as [| a s IH]; simpl; intros H; [now contradiction H |].
  destruct (ascii_dec (upper_char a) a) as [Ea | Na].
  - destruct IH as [c [Hin Hc]].
    + intros E. apply H. now rewrite Ea, E.
    + exists c. split; [now right | exact Hc].
  - exists a. split; [now left | exact Na].
Qed.

(** X4. Decoding is case-sensitive: a string that upper-casing would
    change has a lowercase letter, which is no key of the symbol table,
    and decoding it as it is raises [TypeError]. *)
Theorem decode_needs_upper (s : string) :
  upper s <> s -> decode_suspension_reason (VStr s) = Raise TypeError.
Proof.
  intros H. destruct (upper_changes_some s H) as [c [Hin Hc]].
  exact (decode_unmapped_raises s c Hin (lowercase_unmapped c Hc)).
Qed.

Lemma decode_needs_upper_witness :
  decode_suspension_reason (VStr "aB") = Raise TypeError.
Proof.
  apply (decode_needs_upper "aB"). discriminate.
Defined.

(* ===================================================================== *)
(** * Formatting of answers *)
(* ===================================================================== *)

Lemma map_result_ok {A B : Type} (f : A -> result B) (l : list A)
  (ys : list B) :
  Forall2 (fun x y => f x = Ok y) l ys -> map_result f l = Ok ys.
Proof.
  induction 1 as [| x y l ys Hx _ IH]; simpl; [reflexivity |].
  now rewrite Hx, IH.
Qed.

(** When the only exception the body raises on the items of the list is
    [e], and it raises on one of them, the comprehension raises [e]. *)
Lemma map_result_raises {A B : Type} (f : A -> result B) (l : list A)
  (e : exn) (x : A) :
  (forall y e', In y l -> f y = Raise e' -> e' = e) ->
  In x l -> f x = Raise e -> map_result f l = Raise e.
Proof.
  induction l as [| a l IH]; intros Hall Hin Hx; [contradiction |].
  simpl. destruct (f a) as [b | e'] eqn:Ha.
  - destruct Hin as [-> | Hin]; [congruence |].
    rewrite IH; [reflexivity | | exact Hin | exact Hx].
    intros y e'' Hy. apply Hall. now right.
  - simpl. f_equal. apply (Hall a e'); [now left | exact Ha].
Qed.

Lemma row_texts_raise_only_KeyError (r : row) (e : exn) :
  map_result (fun c : datum => subscript String.eqb c "VarCharValue") r
  = Raise e -> e = KeyError.
Proof.
  induction r as [| c r IH]; simpl; [discriminate |].
  unfold subscript at 1.
  destruct (lookup String.eqb c "VarCharValue"); simpl.
  - destruct (map_result _ r); simpl; [discriminate |].
    intros H. injection H as <-. now apply IH.
  - intros H. now injection H.
Qed.

Lemma columns_of_texts (answer : ResultSet) (texts : list (list value)) :
  Forall2 (Forall2 cell_text) answer texts ->
  map_result
    (fun r : row =>
       map_result (fun c : datum => subscript String.eqb c "VarCharValue") r)
    answer = Ok texts.
Proof.
  intros H. apply map_result_ok.
  induction H as [| r t answer texts Hr _ IH]; constructor; [| exact IH].
  apply map_result_ok.
  induction Hr as [| c v r t Hc _ IHr]; constructor; [| exact IHr].
  unfold subscript. unfold cell_text in Hc. now rewrite Hc.
Qed.

(** X5. When every cell of an answer carries a text, formatting returns
    the texts of all rows but the first: the header row is dropped, also
    when it is the only row or there is no row at all.  In single-column
    mode the result is the first text of each of these rows, provided none
    of them is empty. *)
Theorem format_drops_header (answer : ResultSet) (texts : list (list value)) :
  Forall2 (Forall2 cell_text) answer texts ->
  format_query_results answer false = Ok (tl texts)
  /\ (Forall (fun r => r <> []) (tl texts) ->
      format_query_results answer true = Ok (map (hd VNone) (tl texts))).
Proof.
  intros H. unfold format_query_results.
  rewrite (columns_of_texts answer texts H). cbn [bind_result].
  split; [reflexivity |].
  intros Hne. apply map_result_ok.
  induction Hne as [| r rs Hr _ IH]; simpl; constructor; [| exact IH].
  destruct r; [contradiction | reflexivity].
Qed.

Lemma format_drops_header_witness :
  format_query_results
    [[[("VarCharValue", VStr "FixtureKey")]];
     [[("VarCharValue", VStr "fk-1")]]] false
  = Ok (tl [[VStr "FixtureKey"]; [VStr "fk-1"]])
  /\ format_query_results
       [[[("VarCharValue", VStr "FixtureKey")]];
        [[("VarCharValue", VStr "fk-1")]]] true
     = Ok (map (hd VNone) (tl [[VStr "FixtureKey"]; [VStr "fk-1"]])).
Proof.
  pose proof (format_drops_header
                [[[("VarCharValue", VStr "FixtureKey")]];
                 [[("VarCharValue", VStr "fk-1")]]]
                [[VStr "FixtureKey"]; [VStr "fk-1"]]) as H.
  destruct H as [H1 H2].
  - repeat constructor.
  - split; [exact H1 | apply H2; repeat constructor; discriminate].
Defined.

(** X6. A cell without a text anywhere in the answer, the header row
    included, makes formatting raise [KeyError] in both modes. *)
Theorem format_missing_text (answer : ResultSet) (r : row) (c : datum) :
  In r answer -> In c r ->
  lookup String.eqb c "VarCharValue" = None ->
  format_query_results answer false = Raise KeyError
  /\ format_query_results answer true = Raise KeyError.
Proof.
  intros Hr Hc Hnone.
  assert (Hcols :
            map_result
              (fun r : row =>
                 map_result
                   (fun c : datum => subscript String.eqb c "VarCharValue") r)
              answer = Raise KeyError).
  { apply (map_result_raises _ answer KeyError r); [| exact Hr |].
    - intros y e' _. apply row_texts_raise_only_KeyError.
    - apply (map_result_raises _ r KeyError c); [| exact Hc |].
      + intros y e' _. unfold subscript.
        destruct (lookup String.eqb y "VarCharValue"); [discriminate |].
        intros H. now injection H.
      + unfold subscript. now rewrite Hnone. }
  unfold format_query_results. rewrite Hcols. split; reflexivity.
Qed.

Lemma format_missing_text_witness :
  format_query_results
    [[[("VarCharValue", VStr "SelectionSuspensionReasons")]]; [[]]] false
  = Raise KeyError
  /\ format_query_results
       [[[("VarCharValue", VStr "SelectionSuspensionReasons")]]; [[]]] true
     = Raise KeyError.
Proof.
  apply (format_missing_text _ [[]] []); simpl; auto.
Defined.

(** X7. In single-column mode a data row without cells raises
    [IndexError], although every cell of the answer carries a text and the
    same answer formats without error in the default mode. *)
Theorem format_single_empty_row (answer : ResultSet)
  (texts : list (list value)) :
  Forall2 (Forall2 cell_text) answer texts ->
  In [] (tl texts) ->
  format_query_results answer true = Raise IndexError
  /\ format_query_results answer false = Ok (tl texts).
Proof.
  intros H Hin. unfold format_query_results.
  rewrite (columns_of_texts answer texts H). cbn [bind_result].
  split; [| reflexivity].
  apply (map_result_raises _ (tl texts) IndexError []);
    [| exact Hin | reflexivity].
  intros y e' _. unfold list_item. destruct (nth_error y 0); [discriminate |].
  intros E. now injection E.
Qed.

Lemma format_single_empty_row_witness :
  format_query_results [[[("VarCharValue", VStr "FixtureKey")]]; []] true
  = Raise IndexError
  /\ format_query_results [[[("VarCharValue", VStr "FixtureKey")]]; []] false
     = Ok (tl [[VStr "FixtureKey"]; []]).
Proof.
  apply (format_single_empty_row _ [[VStr "FixtureKey"]; []]).
  - repeat constructor.
  - simpl. auto.
Defined.

(* ===================================================================== *)
(** * The decoding step: what reaches the registry writer *)
(* ===================================================================== *)

Lemma decode_new_encodings_kept (batch : list value) (pairs : list pair) :
  decode_new_encodings batch = Ok (Some pairs) ->
  filter (fun x => py_bool x) batch <> [].
Proof.
  unfold decode_new_encodings.
  destruct (filter (fun x => py_bool x) batch); [discriminate |].
  intros _. discriminate.
Qed.

Lemma filter_all {A : Type} (f : A -> bool) (l : list A) :
  Forall (fun x => f x = true) (filter f l).
Proof.
  apply Forall_forall. intros x Hx. now apply filter_In in Hx.
Qed.

(** X8. The pairs the decoding step hands on are never an empty list, and
    each pair is a non-empty encoded string with a decoded string: the
    text of its [INSERT] can always be built. *)
Theorem decoded_pairs_are_strings (batch : list value) (pairs : list pair) :
  decode_new_encodings batch = Ok (Some pairs) ->
  pairs <> []
  /\ Forall (fun p : pair =>
               exists k d, p = (VStr k, VStr d) /\ k <> ""
                           /\ values_tuple (fst p) (snd p)
                              = Ok ("('" ++ k ++ "','" ++ d ++ "');"))
            pairs.
Proof.
  intros H. pose proof (decode_new_encodings_kept batch pairs H) as Hk.
  destruct (decode_new_encodings_pairs batch pairs H) as [Hfst Hdec].
  split.
  - intros ->. simpl in Hfst. now apply Hk.
  - pose proof (filter_all (fun x => py_bool x) batch) as Htruthy.
    rewrite <- Hfst in Htruthy. clear -Hdec Htruthy.
    induction pairs as [| [k d] pairs IH]; constructor.
    + inversion Hdec as [| ? ? [s [Hs Hd]] _]; subst.
      inversion Htruthy as [| ? ? Hb _]; subst.
      cbn [fst snd] in *. subst k.
      destruct (decode_ok_labels _ _ Hd) as [labels [-> _]].
      exists s, (String.concat ";" labels). repeat split.
      intros ->. discriminate.
    + inversion Hdec; inversion Htruthy; subst. now apply IH.
Qed.

Lemma decoded_pairs_are_strings_witness :
  [(VStr "a", VStr "StalePricing")] <> []
  /\ Forall (fun p : pair =>
               exists k d, p = (VStr k, VStr d) /\ k <> ""
                           /\ values_tuple (fst p) (snd p)
                              = Ok ("('" ++ k ++ "','" ++ d ++ "');"))
            [(VStr "a", VStr "StalePricing")].
Proof.
  apply (decoded_pairs_are_strings [VStr ""; VStr "a"; VNone]).
  reflexivity.
Defined.

Lemma truthy_cell_is_str (v : value) :
  is_cell v = true -> py_bool v = true -> exists s, v = VStr s /\ s <> "".
Proof.
  destruct v as [| z | s]; simpl; intros Hc Hb; try discriminate.
  exists s. split; [reflexivity |]. intros ->. discriminate.
Qed.

(** X9. One ASCII entry with a symbol that is not in the table, after
    upper-casing, fails the whole batch of a table: the step raises
    [TypeError] and returns no pair, whatever the other entries are.  The
    entry is ASCII text, on which [upper] is what [str.upper] does. *)
Theorem unmapped_symbol_fails_batch (batch : list value) (s : string)
  (c : ascii) :
  Forall (fun v => is_cell v = true) batch ->
  In (VStr s) batch ->
  ascii_text s = true ->
  In c (list_ascii_of_string (upper s)) ->
  lookup Ascii.eqb SUSPENSION_REASONS c = None ->
  decode_new_encodings batch = Raise TypeError.
Proof.
  intros Hcells Hin _ Hc Hnone.
  assert (Ns : s <> "") by (intros ->; contradiction).
  unfold decode_new_encodings.
  set (kept := filter (fun x => py_bool x) batch).
  assert (Hk : In (VStr s) kept).
  { apply filter_In. split; [exact Hin | now apply py_bool_str]. }
  destruct kept as [| v kept'] eqn:Ek; [contradiction |].
  cbn [length Nat.ltb Nat.leb]. rewrite <- Ek in *.
  rewrite (map_result_raises _ kept TypeError (VStr s));
    [reflexivity | | exact Hk |].
  - intros y e' Hy. subst kept. apply filter_In in Hy as [Hy Hb].
    rewrite Forall_forall in Hcells.
    destruct (truthy_cell_is_str y (Hcells y Hy) Hb) as [t [-> _]].
    cbn [method_upper bind_result].
    apply decode_raises_only_TypeError.
  - cbn [method_upper bind_result].
    exact (decode_unmapped_raises (upper s) c Hc Hnone).
Qed.

Lemma unmapped_symbol_fails_batch_witness :
  decode_new_encodings [VStr "A"; VNone; VStr "a1"; VStr "B"]
  = Raise TypeError.
Proof.
  apply (unmapped_symbol_fails_batch _ "a1" "1"%char).
  - repeat constructor.
  - simpl. auto.
  - reflexivity.
  - simpl. auto.
  - reflexivity.
Defined.

(* ===================================================================== *)
(** * The registry writer: edges *)
(* ===================================================================== *)

Section Writer.

Variable World : Type.
Variable athena : string -> World -> result (ResultSet * string) * World.

Lemma for_each_app {A S : Type} (body : S -> A -> M World S) (xs ys : list A) :
  forall (s : S) (st : state World),
    for_each World body s (xs ++ ys)%list st
    = bind World (for_each World body s xs)
        (fun s' => for_each World body s' ys) st.
Proof.
  induction xs as [| x xs IH]; intros s st.
  - reflexivity.
  - cbn [app for_each]. unfold bind.
    destruct (body s x st) as [[s' | e] st']; [| reflexivity].
    rewrite IH. reflexivity.
Qed.

(** X10. An empty batch returns ["SUCCEEDED"] without a statement and
    without looking at the schema; a non-empty batch for a schema that has
    no encodings table raises [KeyError] before anything is sent. *)
Theorem insert_unknown_schema (schema : value) (encodings : list pair)
  (st : state World) :
  (forall s, schema = VStr s ->
             lookup String.eqb ENCODINGS_TABLE_SCHEMAS s = None) ->
  insert_into_encodings_table World athena schema [] st
  = (Ok (SStr "SUCCEEDED"), st)
  /\ (encodings <> [] ->
      insert_into_encodings_table World athena schema encodings st
      = (Raise KeyError, st)).
Proof.
  intros Hs. split; [reflexivity |].
  destruct encodings as [| [encoded decoded] rest]; [contradiction |].
  intros _. unfold insert_into_encodings_table.
  cbn [length Nat.ltb Nat.leb for_each].
  unfold bind, insert_one, lift.
  destruct schema as [| z | s]; try reflexivity.
  unfold subscript. now rewrite (Hs s eq_refl).
Qed.

(** X11. Whatever the warehouse answers, the writer returns either the
    string ["SUCCEEDED"] or a list of statuses one of which is not
    ["SUCCEEDED"]; it never returns the string ["FAILED"] or
    ["CANCELLED"], so the test [status in ['FAILED', 'CANCELLED']] of the
    job never holds for it. *)
Theorem insert_status_never_failed (schema : value) (encodings : list pair)
  (st : state World) (r : job_status) :
  fst (insert_into_encodings_table World athena schema encodings st) = Ok r ->
  status_in_failed r = false
  /\ (r = SStr "SUCCEEDED"
      \/ exists statuses,
           r = SList statuses
           /\ exists status, In status statuses /\ status <> "SUCCEEDED").
Proof.
  unfold insert_into_encodings_table.
  destruct (length encodings <? 1)%nat.
  - simpl. intros H. injection H as <-. split; [reflexivity | now left].
  - unfold bind.
    destruct (for_each World (insert_one World athena schema) [] encodings st)
      as [[statuses | e] st']; [| discriminate].
    destruct (forallb (fun status => String.eqb status "SUCCEEDED") statuses)
      eqn:Hall; simpl; intros H; injection H as <-.
    + split; [reflexivity | now left].
    + split; [reflexivity | right]. exists statuses. split; [reflexivity |].
      assert (Hex : existsb (fun status => negb (String.eqb status "SUCCEEDED"))
                      statuses = true).
      { clear -Hall. induction statuses as [| s l IH]; simpl in *;
          [discriminate |].
        destruct (String.eqb s "SUCCEEDED"); simpl in *; [now apply IH | reflexivity]. }
      apply existsb_exists in Hex as [status [Hin Hne]].
      exists status. split; [exact Hin |].
      intros ->. discriminate.
Qed.

Section KnownSchema.

Variables schema target : string.
Hypothesis schema_known :
  lookup String.eqb ENCODINGS_TABLE_SCHEMAS schema = Some target.

Lemma insert_one_str (statuses : list string) (e d : string)
  (st : state World) :
  insert_one World athena (VStr schema) statuses (VStr e, VStr d) st
  = match athena (INSERT_QUERY target e d) (world st) with
    | (Ok (_, status), w') =>
        (Ok (statuses ++ [status])%list,
         mkState w' (journal st
                     ++ [Executed (INSERT_QUERY target e d) (Ok status)])%list)
    | (Raise x, w') =>
        (Raise x,
         mkState w' (journal st
                     ++ [Executed (INSERT_QUERY target e d) (Raise x)])%list)
    end.
Proof.
  unfold insert_one, bind, lift, subscript, values_tuple, query_execution.
  rewrite schema_known. cbv beta iota.
  change (text_lines _) with (INSERT_QUERY target e d).
  destruct (athena (INSERT_QUERY target e d) (world st))
    as [[[rows status] | x] w']; reflexivity.
Qed.

(** X12. An exception of the warehouse ends the batch where it happens:
    when the pairs before have been inserted and the statement of the next
    pair raises, the writer raises the same exception and the pairs after
    it are never sent. *)
Theorem insert_aborts_on_exception (pre post : list (string * string))
  (e d : string) (x : exn) (statuses : list string)
  (st st1 : state World) (w' : World) :
  for_each World (insert_one World athena (VStr schema)) []
    (map str_pair pre) st = (Ok statuses, st1) ->
  athena (INSERT_QUERY target e d) (world st1) = (Raise x, w') ->
  insert_into_encodings_table World athena (VStr schema)
    (map str_pair pre ++ (VStr e, VStr d) :: map str_pair post)%list st
  = (Raise x,
     mkState w' (journal st1
                 ++ [Executed (INSERT_QUERY target e d) (Raise x)])%list).
Proof.
  intros Hpre Hx. unfold insert_into_encodings_table.
  replace (length (map str_pair pre ++ (VStr e, VStr d) :: map str_pair post)
           <? 1)%nat with false
    by (symmetry; apply Nat.ltb_ge; rewrite length_app; simpl; lia).
  unfold bind at 1. rewrite for_each_app. unfold bind at 1. rewrite Hpre.
  cbn [for_each]. unfold bind at 1. rewrite insert_one_str, Hx. reflexivity.
Qed.

(** X13. A pair with a component that is not a string (a decoded value
    [None], say) raises [TypeError] when its statement is built: the pairs
    before it have been inserted and stay so, the pair itself and the pairs
    after it are not sent. *)
Theorem insert_rejects_non_string (pre : list (string * string))
  (post : list pair) (k d : value) (statuses : list string)
  (st st1 : state World) :
  for_each World (insert_one World athena (VStr schema)) []
    (map str_pair pre) st = (Ok statuses, st1) ->
  is_str k && is_str d = false ->
  insert_into_encodings_table World athena (VStr schema)
    (map str_pair pre ++ (k, d) :: post)%list st
  = (Raise TypeError, st1).
Proof.
  intros Hpre Hbad. unfold insert_into_encodings_table.
  replace (length (map str_pair pre ++ (k, d) :: post) <? 1)%nat with false
    by (symmetry; apply Nat.ltb_ge; rewrite length_app; simpl; lia).
  unfold bind at 1. rewrite for_each_app. unfold bind at 1. rewrite Hpre.
  cbn [for_each]. unfold bind at 1.
  unfold insert_one, bind, lift, subscript. rewrite schema_known.
  destruct k as [| kz | ks], d as [| dz | ds]; try reflexivity.
  discriminate.
Qed.

End KnownSchema.

End Writer.

Lemma insert_unknown_schema_witness :
  insert_into_encodings_table Athena.warehouse Athena.run
    (VStr "soccer_stagingus") [] (Athena.start (Athena.baseball [] [] []))
  = (Ok (SStr "SUCCEEDED"), Athena.start (Athena.baseball [] [] []))
  /\ insert_into_encodings_table Athena.warehouse Athena.run
       (VStr "soccer_stagingus") [(VStr "A", VStr "StalePricing")]
       (Athena.start (Athena.baseball [] [] []))
     = (Raise KeyError, Athena.start (Athena.baseball [] [] [])).
Proof.
  pose proof (insert_unknown_schema Athena.warehouse Athena.run
                (VStr "soccer_stagingus") [(VStr "A", VStr "StalePricing")]
                (Athena.start (Athena.baseball [] [] []))) as H.
  destruct H as [H1 H2].
  - intros s E. injection E as <-. reflexivity.
  - split; [exact H1 | apply H2; discriminate].
Defined.

Lemma insert_status_never_failed_witness :
  status_in_failed (SList ["FAILED"]) = false
  /\ (SList ["FAILED"] = SStr "SUCCEEDED"
      \/ exists statuses,
           SList ["FAILED"] = SList statuses
           /\ exists status, In status statuses /\ status <> "SUCCEEDED").
Proof.
  apply (insert_status_never_failed Athena.warehouse Athena.run
           (VStr "baseball_stagingus") [(VStr "B", VStr "Settled")]
           (Athena.start (Athena.baseball [] ["B"] []))).
  reflexivity.
Defined.

Lemma insert_aborts_on_exception_witness :
  insert_into_encodings_table nat one_statement_warehouse
    (VStr "ncaab_stagingus")
    (map str_pair [("A", "StalePricing")]
     ++ (VStr "B", VStr "Settled") :: map str_pair [("C", "OutsideLineRange")])%list
    (mkState 0%nat [])
  = (Raise ValueError,
     mkState 1%nat
       (journal
          (mkState 1%nat
             [Executed (INSERT_QUERY "ncaab_sit_views" "A" "StalePricing")
                       (Ok "SUCCEEDED")])
        ++ [Executed (INSERT_QUERY "ncaab_sit_views" "B" "Settled")
                     (Raise ValueError)])%list).
Proof.
  apply (insert_aborts_on_exception nat one_statement_warehouse
           "ncaab_stagingus" "ncaab_sit_views"
           eq_refl [("A", "StalePricing")] [("C", "OutsideLineRange")]
           "B" "Settled" ValueError ["SUCCEEDED"]
           (mkState 0%nat [])
           (mkState 1%nat
              [Executed (INSERT_QUERY "ncaab_sit_views" "A" "StalePricing")
                        (Ok "SUCCEEDED")])
           1%nat);
    reflexivity.
Defined.

Lemma insert_rejects_non_string_witness :
  insert_into_encodings_table Athena.warehouse Athena.run
    (VStr "baseball_stagingus")
    (map str_pair [("A", "StalePricing")]
     ++ (VStr "B", VNone) :: [(VStr "C", VStr "OutsideLineRange")])%list
    (Athena.start (Athena.baseball [] [] []))
  = (Raise TypeError,
     mkState
       (Athena.baseball [] [] [("mlb_sit_views", ("A", "StalePricing"))])
       [Executed (INSERT_QUERY "mlb_sit_views" "A" "StalePricing")
                 (Ok "SUCCEEDED")]).
Proof.
  apply (insert_rejects_non_string Athena.warehouse Athena.run
           "baseball_stagingus" "mlb_sit_views" eq_refl
           [("A", "StalePricing")] [(VStr "C", VStr "OutsideLineRange")]
           (VStr "B") VNone ["SUCCEEDED"]);
    reflexivity.
Defined.

(* ===================================================================== *)
(** * The job: how a run ends *)
(* ===================================================================== *)

Lemma no_exit_bind {A B : Type} (r : result A) (k : A -> result B) :
  no_exit r -> (forall a, no_exit (k a)) -> no_exit (bind_result r k).
Proof.
  destruct r as [a | e]; simpl; intros Hr Hk; [apply Hk | exact Hr].
Qed.

Lemma no_exit_map_result {A B : Type} (f : A -> result B) (l : list A) :
  (forall x, no_exit (f x)) -> no_exit (map_result f l).
Proof.
  intros Hf. induction l as [| x l IH]; simpl; [exact I |].
  apply no_exit_bind; [apply Hf |]. intros y.
  apply no_exit_bind; [exact IH |]. intros ys. exact I.
Qed.

Lemma no_exit_subscript {K V : Type} (eqb : K -> K -> bool) (d : dict K V)
  (k : K) : no_exit (subscript eqb d k).
Proof.
  unfold subscript. destruct (lookup eqb d k); simpl; auto.
Qed.

Lemma no_exit_list_item {A : Type} (l : list A) (i : nat) :
  no_exit (list_item l i).
Proof.
  unfold list_item. destruct (nth_error l i); simpl; auto.
Qed.

Lemma no_exit_format (answer : ResultSet) (single_column : bool) :
  no_exit (format_query_results answer single_column).
Proof.
  assert (Hcols :
            no_exit
              (map_result
                 (fun r : row =>
                    map_result
                      (fun c : datum => subscript String.eqb c "VarCharValue")
                      r) answer)).
  { apply no_exit_map_result. intros r. apply no_exit_map_result.
    intros c. apply no_exit_subscript. }
  unfold format_query_results. destruct single_column.
  - apply no_exit_bind; [exact Hcols |]. intros columns.
    apply no_exit_map_result. intros r. apply no_exit_list_item.
  - apply no_exit_bind; [exact Hcols |]. intros columns. exact I.
Qed.

Lemma no_exit_decode (v : value) : no_exit (decode_suspension_reason v).
Proof.
  destruct (decode_suspension_reason v) as [r | e] eqn:H; simpl; [exact I |].
  now rewrite (decode_raises_only_TypeError v e H).
Qed.

Lemma no_exit_decode_new_encodings (batch : list value) :
  no_exit (decode_new_encodings batch).
Proof.
  unfold decode_new_encodings.
  destruct (length (filter (fun x => py_bool x) batch) <? 1)%nat;
    [exact I |].
  apply no_exit_bind; [| intros; exact I].
  apply no_exit_map_result. intros reason.
  apply no_exit_bind; [| apply no_exit_decode].
  destruct reason; simpl; auto.
Qed.

Lemma reports_of_app (j1 j2 : list event) :
  reports_of (j1 ++ j2)%list = (reports_of j1 ++ reports_of j2)%list.
Proof.
  unfold reports_of. apply flat_map_app.
Qed.

Section Endings.

Variable World : Type.
Variable athena : string -> World -> result (ResultSet * string) * World.
Variable set_order : list value -> list value.

(** The warehouse may fail a query with an exception, but it does not
    end the process. *)
Hypothesis athena_no_exit : forall q w, no_exit (fst (athena q w)).

Let any {A : Type} : A -> Prop := fun _ => True.

Lemma ends_ret {A : Type} (a : A) (Q : A -> Prop) (E : exn -> Prop) :
  Q a -> ends (ret World a) Q E.
Proof.
  intros HQ st. simpl. now split.
Qed.

Lemma ends_lift {A : Type} (r : result A) :
  no_exit r -> ends (lift World r) any any.
Proof.
  intros Hr st. unfold lift. destruct r as [a | e]; simpl.
  - now split.
  - left. repeat split; auto.
Qed.

Lemma ends_bind {A B : Type} (m : M World A) (k : A -> M World B)
  (Q : B -> Prop) :
  ends m any any -> (forall a, ends (k a) Q any) -> ends (bind World m k) Q any.
Proof.
  intros Hm Hk st. unfold bind. specialize (Hm st).
  destruct (m st) as [[a | e] st1]; simpl in Hm.
  - destruct Hm as [Hr _]. specialize (Hk a st1). unfold ended in *.
    destruct (k a st1) as [[b | e] st2]; now rewrite <- Hr.
  - exact Hm.
Qed.

Lemma ends_weaken {A : Type} (m : M World A) (Q : A -> Prop) :
  ends m Q any -> ends m any any.
Proof.
  intros Hm st. specialize (Hm st). unfold ended in *.
  destruct (m st) as [[a | e] st1]; [| exact Hm].
  destruct Hm. now split.
Qed.

Lemma ends_for_each {A S : Type} (body : S -> A -> M World S) (xs : list A) :
  (forall s x, ends (body s x) any any) ->
  forall s, ends (for_each World body s xs) any any.
Proof.
  intros Hb. induction xs as [| x xs IH]; intros s; cbn [for_each].
  - now apply ends_ret.
  - apply ends_bind; [apply Hb | exact IH].
Qed.

Lemma ends_query (q : string) : ends (query_execution World athena q) any any.
Proof.
  intros st. unfold query_execution. pose proof (athena_no_exit q (world st)) as H.
  destruct (athena q (world st)) as [[[rows status] | e] w']; simpl in *.
  - rewrite reports_of_app, app_nil_r. now split.
  - left. rewrite reports_of_app, app_nil_r. repeat split; auto.
Qed.

Lemma ends_finish_job {A : Type} (status : job_status) :
  ends (@finish_job World A status) (fun _ => False) any.
Proof.
  intros st. unfold finish_job, bind, report_job, raise.
  destruct status as [s | l | e]; simpl.
  - right. split; [reflexivity |]. exists (SStr s). apply reports_of_app.
  - right. split; [reflexivity |]. exists (SList l). apply reports_of_app.
  - left. repeat split; auto.
Qed.

Lemma ends_insert (schema : value) (encodings : list pair) :
  ends (insert_into_encodings_table World athena schema encodings) any any.
Proof.
  unfold insert_into_encodings_table.
  destruct (length encodings <? 1)%nat; [now apply ends_ret |].
  apply ends_bind.
  - apply ends_for_each. intros statuses [encoded decoded]. unfold insert_one.
    apply ends_bind.
    { apply ends_lift. destruct schema; simpl; auto. apply no_exit_subscript. }
    intros target. apply ends_bind.
    { apply ends_lift. destruct encoded, decoded; simpl; auto. }
    intros tuple. apply ends_bind; [apply ends_query |].
    intros [rows status]. now apply ends_ret.
  - intros statuses. destruct (forallb _ statuses); now apply ends_ret.
Qed.

Lemma ends_collect_fixtures (TABLES_SCHEMAS : list (list value))
  (status : string) :
  ends (collect_fixtures World athena set_order TABLES_SCHEMAS status) any any.
Proof.
  unfold collect_fixtures. apply ends_bind.
  - apply ends_lift. apply no_exit_map_result. intros ts.
    apply no_exit_list_item.
  - intros schemas. apply ends_for_each. intros [fixtures_by_schema s] schema.
    apply ends_bind; [apply ends_query |]. intros [fixtures status'].
    apply ends_bind; [apply ends_lift; exact (no_exit_format fixtures true) |].
    intros fixtures'. now apply ends_ret.
Qed.

Lemma ends_collect_new_encodings (TABLES_SCHEMAS : list (list value))
  (fixtures_by_schema : dict value (list value)) (status : string) :
  ends (collect_new_encodings World athena TABLES_SCHEMAS fixtures_by_schema
          status) any any.
Proof.
  unfold collect_new_encodings. apply ends_for_each.
  intros [new_encodings_dict s] ts.
  apply ends_bind.
  { apply ends_lift. unfold unpack2.
    destruct ts as [| a [| b [| c ts]]]; simpl; auto. }
  intros [table schema]. apply ends_bind.
  { apply ends_lift, no_exit_subscript. }
  intros fixtures_list. apply ends_bind; [apply ends_query |].
  intros [new_encodings status']. apply ends_bind.
  { apply ends_lift. exact (no_exit_format new_encodings true). }
  intros encoded. apply ends_bind.
  { apply ends_lift, no_exit_decode_new_encodings. }
  intros [pairs |]; now apply ends_ret.
Qed.

Lemma ends_insert_all (new_encodings_dict : dict value (list pair))
  (status : job_status) :
  ends (insert_all World athena new_encodings_dict status) any any.
Proof.
  unfold insert_all. apply ends_for_each. intros s key.
  apply ends_bind; [apply ends_lift, no_exit_subscript |].
  intros encodings. apply ends_bind; [apply ends_insert |].
  intros status'. destruct (status_in_failed status'); now apply ends_ret.
Qed.

Lemma ends_job_body :
  ends (job_body World athena set_order) (fun _ => False) any.
Proof.
  unfold job_body, check_for_new_suspension_reason_tables.
  apply ends_bind; [apply ends_query |]. intros [TABLES_SCHEMAS status].
  apply ends_bind;
    [apply ends_lift; exact (no_exit_format TABLES_SCHEMAS false) |].
  intros TABLES.
  apply ends_bind; [apply ends_collect_fixtures |].
  intros [fixtures_by_schema status1].
  apply ends_bind.
  { destruct (negb (any_longer_than_one fixtures_by_schema)).
    - apply (ends_weaken _ (fun _ => False)), ends_finish_job.
    - now apply ends_ret. }
  intros _. apply ends_bind; [apply ends_collect_new_encodings |].
  intros [new_encodings_dict status2].
  apply ends_bind.
  { destruct (negb (any_longer_than_one new_encodings_dict)).
    - apply (ends_weaken _ (fun _ => False)), ends_finish_job.
    - now apply ends_ret. }
  intros _. apply ends_bind; [apply ends_insert_all |]. intros status3.
  apply ends_bind.
  { apply ends_lift. destruct status3; simpl; auto. }
  intros status4. apply ends_finish_job.
Qed.


End Endings.


(* ===================================================================== *)
(** * The job: the two early exits and the insertion loop *)
(* ===================================================================== *)

Section Gates.

Variable World : Type.
Variable athena : string -> World -> result (ResultSet * string) * World.
Variable set_order : list value -> list value.

(** X15. The test on recent fixtures asks for a schema with more than one
    fixture key: when the tables were found and every schema has at most
    one recent fixture, the job reports "No new fixtures" and exits; no
    query for new encodings and no [INSERT] is sent after the fixture
    queries. *)
Theorem few_fixtures_end_job (st st1 st2 : state World) (rs : ResultSet)
  (status0 status : string) (TABLES_SCHEMAS : list (list value))
  (fixtures_by_schema : dict value (list value)) :
  check_for_new_suspension_reason_tables World athena st
  = (Ok (rs, status0), st1) ->
  format_query_results rs false = Ok TABLES_SCHEMAS ->
  collect_fixtures World athena set_order TABLES_SCHEMAS status0 st1
  = (Ok (fixtures_by_schema, status), st2) ->
  Forall (fun kv => length (snd kv) <= 1) fixtures_by_schema ->
  main World athena set_order st
  = (Raise (SystemExit 0),
     mkState (world st2)
       (journal st2 ++ [Reported (SStr (status ++ " - No new fixtures"))])%list).
Proof.
  intros H1 H2 H3 Hfew.
  unfold main, try_except, job_body. unfold bind at 1. rewrite H1.
  unfold bind at 1. unfold lift at 1. rewrite H2.
  unfold bind at 1. rewrite H3.
  unfold bind at 1.
  rewrite (any_longer_than_one_short fixtures_by_schema Hfew).
  reflexivity.
Qed.

(** X16. The test on new encodings asks for a schema with more than one
    pair: when the fixture test passed and every schema has collected at
    most one pair, the job reports "No new encodings" and exits; nothing
    is sent after the queries that collected the pairs, so none of the
    pairs is inserted. *)
Theorem few_encodings_end_job (st st1 st2 st3 : state World) (rs : ResultSet)
  (status0 status1 status : string) (TABLES_SCHEMAS : list (list value))
  (fixtures_by_schema : dict value (list value))
  (new_encodings_dict : dict value (list pair)) :
  check_for_new_suspension_reason_tables World athena st
  = (Ok (rs, status0), st1) ->
  format_query_results rs false = Ok TABLES_SCHEMAS ->
  collect_fixtures World athena set_order TABLES_SCHEMAS status0 st1
  = (Ok (fixtures_by_schema, status1), st2) ->
  any_longer_than_one fixtures_by_schema = true ->
  collect_new_encodings World athena TABLES_SCHEMAS fixtures_by_schema status1
    st2 = (Ok (new_encodings_dict, status), st3) ->
  Forall (fun kv => length (snd kv) <= 1) new_encodings_dict ->
  main World athena set_order st
  = (Raise (SystemExit 0),
     mkState (world st3)
       (journal st3 ++ [Reported (SStr (status ++ " - No new encodings"))])%list).
Proof.
  intros H1 H2 H3 Hfix H4 Hfew.
  unfold main, try_except, job_body. unfold bind at 1. rewrite H1.
  unfold bind at 1. unfold lift at 1. rewrite H2.
  unfold bind at 1. rewrite H3.
  unfold bind at 1. rewrite Hfix. cbn [negb]. unfold ret at 1.
  unfold bind at 1. rewrite H4.
  unfold bind at 1.
  rewrite (any_longer_than_one_short new_encodings_dict Hfew).
  reflexivity.
Qed.

(** X17. When the query for tables finds none, the job sends no other
    query: it reports the status of that query followed by
    " - No new fixtures", although no fixture was looked up, and exits. *)
Theorem no_tables_end_job (st : state World) (rs : ResultSet)
  (status : string) (w' : World) :
  athena IDENTIFY_TABLES_WITH_SUSPENSION_REASONS_COLUMNS (world st)
  = (Ok (rs, status), w') ->
  format_query_results rs false = Ok [] ->
  set_order [] = [] ->
  main World athena set_order st
  = (Raise (SystemExit 0),
     mkState w'
       (journal st
        ++ [Executed IDENTIFY_TABLES_WITH_SUSPENSION_REASONS_COLUMNS
                     (Ok status);
            Reported (SStr (status ++ " - No new fixtures"))])%list).
Proof.
  intros H1 H2 Hset.
  unfold main, try_except, job_body, check_for_new_suspension_reason_tables.
  unfold bind at 1. unfold query_execution at 1. rewrite H1.
  unfold bind at 1. unfold lift at 1. rewrite H2.
  unfold bind at 1. unfold collect_fixtures.
  unfold bind at 1. unfold lift at 1. cbn [map_result]. rewrite Hset.
  cbn [for_each]. unfold ret at 1.
  unfold bind at 1. cbn [any_longer_than_one map existsb negb].
  unfold finish_job, bind, report_job, raise. cbn [world journal].
  now rewrite <- app_assoc.
Qed.

End Gates.

Lemma few_fixtures_end_job_witness :
  fst (Athena.run_main one_fixture_day) = Raise (SystemExit 0)
  /\ queries_of (journal (snd (Athena.run_main one_fixture_day)))
     = [IDENTIFY_TABLES_WITH_SUSPENSION_REASONS_COLUMNS;
        TIME_PARTITIONED_FIXTURE_KEYS_QUERY (VStr "baseball_stagingus") 25].
Proof.
  unfold Athena.run_main.
  erewrite few_fixtures_end_job; cycle 1.
  - reflexivity.
  - reflexivity.
  - reflexivity.
  - repeat constructor.
  - split; reflexivity.
Defined.

Lemma few_encodings_end_job_witness :
  fst (Athena.run_main (Athena.baseball [VStr "A"; VStr ""] [] []))
  = Raise (SystemExit 0)
  /\ Athena.registry
       (world (snd (Athena.run_main
                      (Athena.baseball [VStr "A"; VStr ""] [] []))))
     = [].
Proof.
  unfold Athena.run_main.
  erewrite few_encodings_end_job; cycle 1.
  - reflexivity.
  - reflexivity.
  - reflexivity.
  - reflexivity.
  - reflexivity.
  - repeat constructor.
  - split; reflexivity.
Defined.

Lemma no_tables_end_job_witness :
  Athena.run_main no_tables_day
  = (Raise (SystemExit 0),
     mkState no_tables_day
       ([] ++ [Executed IDENTIFY_TABLES_WITH_SUSPENSION_REASONS_COLUMNS
                        (Ok "SUCCEEDED");
               Reported (SStr ("SUCCEEDED" ++ " - No new fixtures"))])%list).
Proof.
  apply (no_tables_end_job Athena.warehouse Athena.run
           Athena.first_occurrences (Athena.start no_tables_day)
           (Athena.tables no_tables_day) "SUCCEEDED" no_tables_day);
    reflexivity.
Defined.

Lemma value_eqb_refl (v : value) : value_eqb v v = true.
Proof.
  unfold value_eqb. destruct (value_eq_dec v v); [reflexivity | contradiction].
Qed.

Lemma value_eqb_str (a b : string) :
  value_eqb (VStr a) (VStr b) = String.eqb a b.
Proof.
  unfold value_eqb. destruct (value_eq_dec (VStr a) (VStr b)) as [E | N].
  - injection E as ->. now rewrite String.eqb_refl.
  - symmetry. apply String.eqb_neq. congruence.
Qed.

Lemma lookup_encodings_dict_prefix
  (d0 d1 : list (string * list (string * string))) (k : string) :
  In k (map fst d0) ->
  lookup value_eqb (encodings_dict (d0 ++ d1)) (VStr k)
  = lookup value_eqb (encodings_dict d0) (VStr k)
  /\ exists encs,
       lookup value_eqb (encodings_dict d0) (VStr k)
       = Some (map str_pair encs).
Proof.
  induction d0 as [| [k' encs'] d0 IH]; intros Hin; [contradiction |].
  cbn [app encodings_dict map lookup fst snd]. rewrite value_eqb_str.
  destruct (String.eqb_spec k' k) as [-> | Hne].
  - split; [reflexivity | now exists encs'].
  - destruct Hin as [E | Hin]; [contradiction |]. exact (IH Hin).
Qed.

Lemma lookup_encodings_dict_last
  (d0 : list (string * list (string * string))) (k : string)
  (encs : list (string * string)) :
  ~ In k (map fst d0) ->
  lookup value_eqb (encodings_dict (d0 ++ [(k, encs)])) (VStr k)
  = Some (map str_pair encs).
Proof.
  induction d0 as [| [k' encs'] d0 IH]; intros Hnot;
    cbn [app encodings_dict map lookup fst snd]; rewrite value_eqb_str.
  - now rewrite String.eqb_refl.
  - destruct (String.eqb_spec k' k) as [-> | Hne].
    + exfalso. apply Hnot. now left.
    + apply IH. intros Hin. apply Hnot. now right.
Qed.

Section InsertionLoop.

Variable World : Type.
Variable athena : string -> World -> result (ResultSet * string) * World.

Hypothesis athena_answers :
  forall q w, exists rows status w', athena q w = (Ok (rows, status), w').

(** One turn of the loop over the schemas of [d]. *)
Let turn (d : dict value (list pair)) (_ : job_status) (key : value)
  : M World job_status :=
  bind World (lift World (subscript value_eqb d key)) (fun encodings =>
  bind World (insert_into_encodings_table World athena key encodings)
    (fun status =>
       if status_in_failed status then ret World status
       else ret World status)).

Lemma turn_is_insert (d : dict value (list pair)) (s : job_status)
  (key : value) (encodings : list pair) (st : state World) :
  lookup value_eqb d key = Some encodings ->
  turn d s key st = insert_into_encodings_table World athena key encodings st.
Proof.
  intros H. unfold turn, bind, lift, subscript. rewrite H.
  destruct (insert_into_encodings_table World athena key encodings st)
    as [[r | e] st']; [| reflexivity].
  destruct (status_in_failed r); reflexivity.
Qed.

(** The turns for schemas that have an encodings table all return. *)
Lemma turns_return (d0 d1 : list (string * list (string * string)))
  (ks : list string) :
  Forall (fun k => In k (map fst d0)
                   /\ exists target,
                        lookup String.eqb ENCODINGS_TABLE_SCHEMAS k
                        = Some target) ks ->
  forall (s : job_status) (st : state World),
    for_each World (turn (encodings_dict (d0 ++ d1))) s (map VStr ks) st
    = for_each World (turn (encodings_dict d0)) s (map VStr ks) st
    /\ exists s' st',
         for_each World (turn (encodings_dict d0)) s (map VStr ks) st
         = (Ok s', st').
Proof.
  induction 1 as [| k ks [Hin [target Ht]] _ IH]; intros s st.
  - split; [reflexivity | now exists s, st].
  - destruct (lookup_encodings_dict_prefix d0 d1 k Hin) as [Hsame [encs He]].
    cbn [map for_each]. unfold bind at 1 2 3.
    rewrite (turn_is_insert _ s (VStr k) (map str_pair encs) st)
      by (now rewrite Hsame).
    rewrite (turn_is_insert _ s (VStr k) (map str_pair encs) st He).
    destruct (insert_run World athena athena_answers k target Ht encs st)
      as (statuses & st' & Hrun & _).
    rewrite Hrun. apply IH.
Qed.

(** X18. The insertion loop keeps only the status of the last schema:
    after the batches of the schemas before it have been inserted, what
    the loop returns is what inserting the last batch returns, so statuses
    of failed insertions of an earlier schema are dropped. *)
Theorem insert_all_keeps_last_status
  (d0 : list (string * list (string * string))) (k : string)
  (encs : list (string * string)) (init : job_status) (st : state World) :
  Forall (fun kv => exists target,
                      lookup String.eqb ENCODINGS_TABLE_SCHEMAS (fst kv)
                      = Some target) d0 ->
  ~ In k (map fst d0) ->
  insert_all World athena (encodings_dict (d0 ++ [(k, encs)])) init st
  = insert_into_encodings_table World athena (VStr k) (map str_pair encs)
      (snd (insert_all World athena (encodings_dict d0) init st)).
Proof.
  intros Hknown Hnot.
  assert (Hks : Forall (fun k' => In k' (map fst d0)
                                  /\ exists target,
                                       lookup String.eqb
                                         ENCODINGS_TABLE_SCHEMAS k'
                                       = Some target) (map fst d0)).
  { apply Forall_forall. intros k' Hk'. split; [exact Hk' |].
    apply in_map_iff in Hk' as [kv [<- Hkv]].
    rewrite Forall_forall in Hknown. exact (Hknown kv Hkv). }
  destruct (turns_return d0 [(k, encs)] (map fst d0) Hks init st)
    as [Hsame (s' & st' & Hrun)].
  assert (Hkeys : forall d, map fst (encodings_dict d) = map VStr (map fst d)).
  { intros d. unfold encodings_dict. rewrite !map_map. reflexivity. }
  unfold insert_all. fold (turn (encodings_dict (d0 ++ [(k, encs)]))).
  fold (turn (encodings_dict d0)).
  rewrite !Hkeys, map_app, map_app. cbn [map].
  rewrite for_each_app. unfold bind at 1. rewrite Hsame, Hrun.
  cbn [for_each snd]. unfold bind at 1.
  rewrite (turn_is_insert _ s' (VStr k) (map str_pair encs) st')
    by (now apply lookup_encodings_dict_last).
  destruct (insert_into_encodings_table World athena (VStr k)
              (map str_pair encs) st') as [[r | e] st'']; reflexivity.
Qed.

End InsertionLoop.

Lemma insert_all_keeps_last_status_witness :
  fst (insert_all Athena.warehouse Athena.run
         (encodings_dict
            ([("baseball_stagingus", [("A", "StalePricing"); ("B", "Settled")])]
             ++ [("ncaab_stagingus", [("C", "OutsideLineRange")])]))
         (SStr "SUCCEEDED") (Athena.start (Athena.baseball [] ["B"] [])))
  = Ok (SStr "SUCCEEDED").
Proof.
  rewrite (insert_all_keeps_last_status Athena.warehouse Athena.run
             Athena_run_answers
             [("baseball_stagingus", [("A", "StalePricing"); ("B", "Settled")])]
             "ncaab_stagingus" [("C", "OutsideLineRange")]).
  - reflexivity.
  - repeat constructor. eexists. reflexivity.
  - simpl. intros [H | []]. discriminate.
Defined.

Section LastStep.

Variable World : Type.
Variable athena : string -> World -> result (ResultSet * string) * World.
Variable set_order : list value -> list value.

(** X19. Once both tests have passed and the insertion loop has returned,
    the end of the run depends on what it returned: on a string the job
    reports that string followed by the new encodings and exits; on a list
    of statuses it raises [TypeError] and reports nothing, with every
    statement already sent. *)
Theorem job_after_insertions (st st1 st2 st3 st4 : state World)
  (rs : ResultSet) (status0 status1 status : string)
  (TABLES_SCHEMAS : list (list value))
  (fixtures_by_schema : dict value (list value))
  (new_encodings_dict : dict value (list pair)) (r : job_status) :
  check_for_new_suspension_reason_tables World athena st
  = (Ok (rs, status0), st1) ->
  format_query_results rs false = Ok TABLES_SCHEMAS ->
  collect_fixtures World athena set_order TABLES_SCHEMAS status0 st1
  = (Ok (fixtures_by_schema, status1), st2) ->
  any_longer_than_one fixtures_by_schema = true ->
  collect_new_encodings World athena TABLES_SCHEMAS fixtures_by_schema status1
    st2 = (Ok (new_encodings_dict, status), st3) ->
  any_longer_than_one new_encodings_dict = true ->
  insert_all World athena new_encodings_dict (SStr status) st3 = (Ok r, st4) ->
  main World athena set_order st
  = match r with
    | SStr s =>
        (Raise (SystemExit 0),
         mkState (world st4)
           (journal st4
            ++ [Reported
                  (SStr (s ++ " - Encodings added : "
                           ++ repr_encodings new_encodings_dict))])%list)
    | _ => (Raise TypeError, st4)
    end.
Proof.
  intros H1 H2 H3 Hfix H4 Henc H5.
  unfold main, try_except, job_body. unfold bind at 1. rewrite H1.
  unfold bind at 1. unfold lift at 1. rewrite H2.
  unfold bind at 1. rewrite H3.
  unfold bind at 1. rewrite Hfix. cbn [negb]. unfold ret at 1.
  unfold bind at 1. rewrite H4.
  unfold bind at 1. rewrite Henc. cbn [negb]. unfold ret at 1.
  unfold bind at 1. rewrite H5.
  unfold bind at 1. unfold lift at 1.
  destruct r as [s | l | e]; reflexivity.
Qed.

End LastStep.

Lemma job_after_insertions_witness :
  fst (Athena.run_main (Athena.baseball [VStr "A"; VStr "b"] [] []))
  = Raise (SystemExit 0)
  /\ reports_of
       (journal
          (snd (Athena.run_main (Athena.baseball [VStr "A"; VStr "b"] [] []))))
     = [SStr "SUCCEEDED - Encodings added : {'baseball_stagingus': [('A', 'StalePricing'), ('b', 'Settled')]}"].
Proof.
  unfold Athena.run_main.
  erewrite job_after_insertions; cycle 1.
  - reflexivity.
  - reflexivity.
  - reflexivity.
  - reflexivity.
  - reflexivity.
  - reflexivity.
  - reflexivity.
  - split; reflexivity.
Defined.

(* ===================================================================== *)
(** * The decoding step: no quote reaches a statement *)
(* ===================================================================== *)

Lemma quote_free_app (a b : string) :
  quote_free (a ++ b) = quote_free a && quote_free b.
Proof.
  induction a as [| c a IH]; simpl; [reflexivity |].
  rewrite IH. now rewrite andb_assoc.
Qed.

Lemma label_of_quote_free (c : ascii) (label : string) :
  label_of c label -> quote_free label = true.
Proof.
  intros H. apply label_of_In in H.
  assert (Hall : forallb (fun kv => quote_free (snd kv)) SUSPENSION_REASONS
                 = true) by reflexivity.
  rewrite forallb_forall in Hall. exact (Hall _ H).
Qed.

Lemma concat_quote_free (labels : list string) :
  Forall (fun l => quote_free l = true) labels ->
  quote_free (String.concat ";" labels) = true.
Proof.
  induction 1 as [| l labels Hl _ IH]; [reflexivity |].
  rewrite concat_cons, quote_free_app, Hl.
  destruct labels; [reflexivity |].
  cbn [join_rest]. rewrite quote_free_app. exact IH.
Qed.

(** The quote is no key, and upper-casing does not turn a quote into
    anything else nor anything else into a quote. *)
Lemma known_upper_not_quote (c : ascii) :
  known_symbol (upper_char c) -> Ascii.eqb c "'"%char = false.
Proof.
  intros [label H]. destruct (Ascii.eqb_spec c "'"%char) as [-> |];
    [discriminate | reflexivity].
Qed.

Lemma known_upper_quote_free (s : string) :
  Forall known_symbol (list_ascii_of_string (upper s)) -> quote_free s = true.
Proof.
  induction s as [| c s IH]; simpl; intros H; [reflexivity |].
  inversion H as [| ? ? Hc Hs]; subst.
  now rewrite (known_upper_not_quote c Hc), IH.
Qed.

(** X20. No pair that the decoding step hands on contains a single
    quote, in the encoded or in the decoded string: the values of an
    [INSERT] built from it cannot close the literal they are written in. *)
Theorem decoded_pairs_quote_free (batch : list value) (pairs : list pair) :
  decode_new_encodings batch = Ok (Some pairs) ->
  Forall (fun p : pair =>
            exists k d, p = (VStr k, VStr d)
                        /\ quote_free k = true /\ quote_free d = true)
         pairs.
Proof.
  intros H. destruct (decode_new_encodings_pairs batch pairs H) as [_ Hdec].
  clear H. induction Hdec as [| [k d] pairs [s [Hs Hd]] _ IH];
    constructor; [| exact IH].
  cbn [fst snd] in *. subst k.
  destruct (decode_ok_labels _ _ Hd) as [labels [-> HF]].
  exists s, (String.concat ";" labels). repeat split.
  - apply known_upper_quote_free. eapply labels_known. exact HF.
  - apply concat_quote_free. clear -HF.
    induction HF as [| c l cs ls Hc _ IH]; constructor;
      [exact (label_of_quote_free c l Hc) | exact IH].
Qed.

Lemma decoded_pairs_quote_free_witness :
  Forall (fun p : pair =>
            exists k d, p = (VStr k, VStr d)
                        /\ quote_free k = true /\ quote_free d = true)
         [(VStr "ab", VStr "StalePricing;Settled")].
Proof.
  apply (decoded_pairs_quote_free [VStr "ab"; VNone]). reflexivity.
Defined.

(* ===================================================================== *)
(** * Inside [query_execution]: what the polling loop returns *)
(* ===================================================================== *)

Section PollingFacts.

Variable World : Type.
Variable start_query_execution : string -> World -> result string * World.
Variable get_query_execution : string -> World -> result string * World.
Variable get_query_results : string -> World -> result ResultSet * World.

Lemma is_final_cases (status : string) :
  Polling.is_final status = true ->
  status = "SUCCEEDED" \/ status = "FAILED" \/ status = "CANCELLED".
Proof.
  unfold Polling.is_final. cbn [skipn Polling.possible_statuses existsb].
  intros H. repeat (apply orb_true_iff in H as [H | H]);
    try discriminate; apply String.eqb_eq in H; auto.
Qed.

Lemma poll_final (fuel : nat) (query_id : string) :
  forall (w w' : World) (status : string),
    Polling.poll World get_query_execution fuel query_id w
    = Some (Ok status, w') ->
    Polling.is_final status = true.
Proof.
  induction fuel as [| fuel IH]; intros w w' status; simpl; [discriminate |].
  destruct (get_query_execution query_id w) as [[s | e] w1].
  - destruct (Polling.is_final s) eqn:Hs.
    + intros H. injection H as <- _. exact Hs.
    + apply IH.
  - destruct (is_exit e); discriminate.
Qed.

(** X21. Whenever [query_execution] returns, the status it returns is one
    of [SUCCEEDED], [FAILED] and [CANCELLED]: a query is never handed back
    while it is queued or running. *)
Theorem query_execution_final_status (fuel : nat) (query : string)
  (w w' : World) (rows : ResultSet) (status : string) :
  Polling.query_execution World start_query_execution get_query_execution
    get_query_results fuel query w = Some (Ok (rows, status), w') ->
  status = "SUCCEEDED" \/ status = "FAILED" \/ status = "CANCELLED".
Proof.
  unfold Polling.query_execution.
  destruct (start_query_execution query w) as [[query_id | e] w1];
    [| discriminate].
  destruct (Polling.poll World get_query_execution fuel query_id w1)
    as [[[s | e] w2] |] eqn:Hp; try discriminate.
  destruct (get_query_results query_id w2) as [[r | e] w3]; [| discriminate].
  intros H. injection H as _ <- _.
  apply is_final_cases. exact (poll_final fuel query_id w1 w2 s Hp).
Qed.

(** X22. The loop polls until the state is final and no longer: when the
    execution is seen not final at the next [k] polls and settles at the
    poll after them, the loop does not return within [k] polls, and it
    returns with any fuel above [k], with the same result whatever the
    fuel. *)
Theorem poll_returns_when_settled (k : nat) (query_id : string) :
  forall (w : World),
    Polling.settles_after World get_query_execution k query_id w = true ->
    (forall fuel, fuel <= k ->
                  Polling.poll World get_query_execution fuel query_id w = None)
    /\ exists out,
         forall fuel, k < fuel ->
                      Polling.poll World get_query_execution fuel query_id w
                      = Some out.
Proof.
  induction k as [| k IH]; intros w Hs; cbn [Polling.settles_after] in Hs.
  - split.
    + intros fuel Hf. replace fuel with 0 by lia. reflexivity.
    + destruct (get_query_execution query_id w) as [[s | e] w1] eqn:Hg.
      * exists (Ok s, w1). intros [| fuel] Hf; [lia |].
        cbn [Polling.poll]. now rewrite Hg, Hs.
      * exists (if is_exit e then (Raise e, w1) else (Raise TypeError, w1)).
        intros [| fuel] Hf; [lia |].
        cbn [Polling.poll]. rewrite Hg. now destruct (is_exit e).
  - destruct (get_query_execution query_id w) as [[s | e] w1] eqn:Hg;
      [| discriminate].
    apply andb_true_iff in Hs as [Hn Hs]. apply negb_true_iff in Hn.
    destruct (IH w1 Hs) as [Hnone [out Hout]]. split.
    + intros [| fuel] Hf; [reflexivity |].
      cbn [Polling.poll]. rewrite Hg, Hn. apply Hnone. lia.
    + exists out. intros [| fuel] Hf; [lia |].
      cbn [Polling.poll]. rewrite Hg, Hn. apply Hout. lia.
Qed.

(** X23. An exception of the client while polling does not come out as
    it is: the handler of the loop raises a string, so the caller sees
    [TypeError] whatever the client raised, and the rows are not
    fetched. *)
Theorem polling_exception_becomes_TypeError (fuel : nat) (query : string)
  (query_id : string) (w w1 w2 : World) (e : exn) :
  start_query_execution query w = (Ok query_id, w1) ->
  get_query_execution query_id w1 = (Raise e, w2) ->
  is_exit e = false ->
  Polling.query_execution World start_query_execution get_query_execution
    get_query_results (S fuel) query w = Some (Raise TypeError, w2).
Proof.
  intros Hstart Hget He. unfold Polling.query_execution.
  rewrite Hstart. cbn [Polling.poll]. now rewrite Hget, He.
Qed.

End PollingFacts.

Lemma query_execution_final_status_witness :
  "FAILED" = "SUCCEEDED" \/ "FAILED" = "FAILED" \/ "FAILED" = "CANCELLED".
Proof.
  apply (query_execution_final_status nat Polling.countdown_start
           (Polling.countdown_get "FAILED") (Polling.countdown_results [])
           5 "SELECT 1" 2%nat 0%nat [] "FAILED").
  reflexivity.
Defined.

Lemma poll_returns_when_settled_witness :
  (forall fuel, fuel <= 2 ->
                Polling.poll nat (Polling.countdown_get "SUCCEEDED") fuel "q-1"
                             2%nat = None)
  /\ exists out,
       forall fuel, 2 < fuel ->
                    Polling.poll nat (Polling.countdown_get "SUCCEEDED") fuel
                                 "q-1" 2%nat = Some out.
Proof.
  apply (poll_returns_when_settled nat (Polling.countdown_get "SUCCEEDED")
           2 "q-1" 2%nat).
  reflexivity.
Defined.

Lemma polling_exception_becomes_TypeError_witness :
  Polling.query_execution nat Polling.countdown_start Polling.broken_get
    (Polling.countdown_results []) 1 "SELECT 1" 0%nat
  = Some (Raise TypeError, 0%nat).
Proof.
  apply (polling_exception_becomes_TypeError nat Polling.countdown_start
           Polling.broken_get (Polling.countdown_results [])
           0 "SELECT 1" "q-1" 0%nat 0%nat 0%nat KeyError);
    reflexivity.
Defined.

(* ===================================================================== *)
(** * The registry writer: what is sent, whatever the registry holds *)
(* ===================================================================== *)

(** C5, as the spec states it, fails when a statement raises.  The
    warehouse completes the first statement and raises on the second: of
    the three pairs two statements are sent, the call raises, and no
    result, per pair or other, comes back. *)
Lemma insert_stops_at_raising_statement :
  ~ reports_each_pair one_statement_warehouse "ncaab_stagingus"
      "ncaab_sit_views"
      [("A", "StalePricing"); ("B", "Settled"); ("C", "OutsideLineRange")]
      (mkState 0%nat [])
  /\ fst (insert_into_encodings_table nat one_statement_warehouse
            (VStr "ncaab_stagingus")
            (map str_pair [("A", "StalePricing"); ("B", "Settled");
                           ("C", "OutsideLineRange")])
            (mkState 0%nat []))
     = Raise ValueError
  /\ queries_of
       (journal
          (snd (insert_into_encodings_table nat one_statement_warehouse
                  (VStr "ncaab_stagingus")
                  (map str_pair [("A", "StalePricing"); ("B", "Settled");
                                 ("C", "OutsideLineRange")])
                  (mkState 0%nat []))))
     = [INSERT_QUERY "ncaab_sit_views" "A" "StalePricing";
        INSERT_QUERY "ncaab_sit_views" "B" "Settled"].
Proof.
  repeat split; try reflexivity.
  intros (statuses & st' & r & Hrun & _).
  vm_compute in Hrun. discriminate.
Qed.

Section SkipsNothing.

Variable World : Type.
Variable athena : string -> World -> result (ResultSet * string) * World.

Variables schema target : string.
Hypothesis schema_known :
  lookup String.eqb ENCODINGS_TABLE_SCHEMAS schema = Some target.

(** The statements of the loop are those of the first [n] pairs, and of
    all the pairs when the loop returns. *)
Lemma insert_loop_sends_prefix (encodings : list (string * string)) :
  forall (statuses : list string) (st : state World),
  exists n,
    n <= length encodings
    /\ queries_of
         (journal
            (snd (for_each World (insert_one World athena (VStr schema))
                    statuses (map str_pair encodings) st)))
       = (queries_of (journal st)
          ++ map (fun p => INSERT_QUERY target (fst p) (snd p))
                 (firstn n encodings))%list
    /\ (forall r,
          fst (for_each World (insert_one World athena (VStr schema))
                 statuses (map str_pair encodings) st) = Ok r ->
          n = length encodings).
Proof.
  induction encodings as [| [e d] encodings IH]; intros statuses st.
  - exists 0. cbn. rewrite app_nil_r. repeat split; auto.
  - change (map str_pair ((e, d) :: encodings))
      with ((VStr e, VStr d) :: map str_pair encodings).
    cbn [for_each]. unfold bind.
    rewrite (insert_one_str World athena schema target schema_known).
    destruct (athena (INSERT_QUERY target e d) (world st))
      as [[[rows status] | x] w'].
    + destruct (IH (statuses ++ [status])%list
                   (mkState w'
                      (journal st
                       ++ [Executed (INSERT_QUERY target e d) (Ok status)])%list))
        as (n & Hn & Hq & Hall).
      exists (S n). split; [simpl; lia |]. split.
      * rewrite Hq. cbn [journal firstn map fst snd].
        rewrite queries_of_app. cbn. now rewrite <- app_assoc.
      * intros r Hr. simpl. f_equal. exact (Hall r Hr).
    + exists 1. split; [simpl; lia |]. split.
      * cbn [snd journal firstn map fst]. rewrite queries_of_app. reflexivity.
      * cbn [fst]. discriminate.
Qed.


End SkipsNothing.


(* ===================================================================== *)
(** * The decoding step: blank entries and cells without a text *)
(* ===================================================================== *)


Lemma decodable_entries_decode (kept : list value) :
  Forall (fun v => is_cell v = true) kept ->
  Forall (fun v => py_bool v = true) kept ->
  Forall decodable kept ->
  exists decoded,
    map_result
      (fun reason => bind_result (method_upper reason) decode_suspension_reason)
      kept = Ok decoded.
Proof.
  induction kept as [| v kept IH]; intros Hc Hb Hd.
  - exists []. reflexivity.
  - inversion Hc as [| ? ? Hcv Hc']; inversion Hb as [| ? ? Hbv Hb'];
      inversion Hd as [| ? ? Hdv Hd']; subst.
    destruct (truthy_cell_is_str v Hcv Hbv) as [s [-> _]].
    destruct (decode_labels (upper s) (Hdv s eq_refl)) as [labels [Hl _]].
    destruct (IH Hc' Hb' Hd') as [decoded Hdec].
    exists (VStr (String.concat ";" labels) :: decoded).
    cbn [map_result method_upper bind_result]. now rewrite Hl, Hdec.
Qed.

Lemma Forall_filter {A : Type} (P : A -> Prop) (f : A -> bool) (l : list A) :
  Forall P l -> Forall P (filter f l).
Proof.
  intros H. apply Forall_forall. intros x Hx. apply filter_In in Hx as [Hx _].
  rewrite Forall_forall in H. now apply H.
Qed.


